(** * Knowledge-intelligence engine: TF-IDF search, trends, connections, QA

    A shallow embedding of the JavaScript sources
      - utils/text.js            (tokenizer, similarity measures)
      - embeddings/vectorizer.js (TFIDFVectorizer)
      - search/semantic.js       (SemanticSearch)
      - analysis/trends.js       (TrendAnalyzer)
      - analysis/connections.js  (ConnectionDiscovery)
      - the question-answering engine (class QAEngine)
    followed by the properties established about them.

    Modelling conventions.
      - A JavaScript string is the list of its code points ([jsstring]).
      - A JavaScript number is an exact real, an infinity or NaN ([number]):
        IEEE rounding is idealised away, the NaN produced by 0/0 is kept.
        Counts that the code derives from lengths and sizes are [nat].
      - A plain object used as a dictionary is an association list in
        property-creation order ([obj]); enumeration follows
        OrdinaryOwnPropertyKeys (array-index keys first, ascending).
        Keys are assumed distinct from the property names that every object
        inherits from Object.prototype (among the strings tokenize can
        produce only the word constructor is such a name).
      - Methods that assign to fields of [this] take the receiver and return
        the updated receiver; [throw] is the [Throw] outcome of [result]. *)

From Stdlib Require Import List Bool Arith NArith ZArith Lia.
From Stdlib Require String Ascii.
Import String.StringSyntax.
Delimit Scope string_scope with string.
Bind Scope string_scope with String.string.
From Stdlib Require Import QArith Reals Lra Permutation Sorted.
Import ListNotations.

Set Implicit Arguments.

Close Scope Q_scope.
Close Scope R_scope.
Open Scope nat_scope.

(* ================================================================== *)
(** * The JavaScript base layer *)
(* ================================================================== *)

Module JS.

(** ** Strings *)

Definition jsstring := list N.

Definition str_eq_dec : forall a b : jsstring, {a = b} + {a <> b} :=
  list_eq_dec N.eq_dec.

Definition str_eqb (a b : jsstring) : bool :=
  if str_eq_dec a b then true else false.

(** Source literals are written as UTF-8 text and decoded to code points. *)
Fixpoint utf8_decode (bs : list N) : jsstring :=
  match bs with
  | [] => []
  | b :: rest =>
      if (b <? 128)%N then b :: utf8_decode rest
      else if (b <? 224)%N then
        match rest with
        | b1 :: r => ((b - 192) * 64 + (b1 - 128))%N :: utf8_decode r
        | _ => []
        end
      else if (b <? 240)%N then
        match rest with
        | b1 :: b2 :: r =>
            ((b - 224) * 4096 + (b1 - 128) * 64 + (b2 - 128))%N :: utf8_decode r
        | _ => []
        end
      else
        match rest with
        | b1 :: b2 :: b3 :: r =>
            ((b - 240) * 262144 + (b1 - 128) * 4096 + (b2 - 128) * 64
             + (b3 - 128))%N :: utf8_decode r
        | _ => []
        end
  end.

Definition str (s : String.string) : jsstring :=
  utf8_decode (map Ascii.N_of_ascii (String.list_ascii_of_string s)).

(** [s.length] counts UTF-16 code units. *)
Definition code_units (c : N) : nat := if (c <? 65536)%N then 1 else 2.

Definition js_length (s : jsstring) : nat :=
  fold_right (fun c n => code_units c + n) 0 s.

(** [String.prototype.toLowerCase] on the characters that matter to the
    consumers below: ASCII capitals, and the two non-ASCII characters whose
    lower case contains an ASCII letter (U+0130, U+212A).  Every other cased
    letter lower-cases to a character that is neither an ASCII letter or
    digit nor a CJK ideograph and is left as it is. *)
Definition lower_char (c : N) : jsstring :=
  if ((65 <=? c) && (c <=? 90))%N then [(c + 32)%N]
  else if (c =? 304)%N then [105%N; 775%N]
  else if (c =? 8490)%N then [107%N]
  else [c].

Definition toLowerCase (s : jsstring) : jsstring := flat_map lower_char s.

Fixpoint starts_with (p s : jsstring) : bool :=
  match p, s with
  | [], _ => true
  | _ :: _, [] => false
  | a :: p', b :: s' => (a =? b)%N && starts_with p' s'
  end.

(** [s.includes(p)] *)
Fixpoint includes (s p : jsstring) : bool :=
  starts_with p s ||
  match s with
  | [] => false
  | _ :: s' => includes s' p
  end.

(** [parts.join(sep)] *)
Fixpoint join (sep : jsstring) (parts : list jsstring) : jsstring :=
  match parts with
  | [] => []
  | [p] => p
  | p :: rest => p ++ sep ++ join sep rest
  end.

(** A string is truthy when it is not empty; [undefined] is falsy. *)
Definition truthy_str (s : jsstring) : bool :=
  match s with [] => false | _ => true end.

Definition or_empty (o : option jsstring) : jsstring :=
  match o with Some s => s | None => [] end.

Definition or_nil {A} (o : option (list A)) : list A :=
  match o with Some l => l | None => [] end.

(** ** Sets (insertion ordered, as [Set]) *)

Definition has (s : list jsstring) (x : jsstring) : bool :=
  existsb (str_eqb x) s.

Definition set_add (s : list jsstring) (x : jsstring) : list jsstring :=
  if has s x then s else s ++ [x].

(** [new Set(items)] *)
Definition mkSet (items : list jsstring) : list jsstring :=
  fold_left set_add items [].

(** ** Plain objects used as dictionaries *)

Definition obj (V : Type) := list (jsstring * V).

Fixpoint get {V} (o : obj V) (k : jsstring) : option V :=
  match o with
  | [] => None
  | (k', v) :: o' => if str_eqb k k' then Some v else get o' k
  end.

(** [o[k] = v]: an existing property keeps its place. *)
Fixpoint put {V} (o : obj V) (k : jsstring) (v : V) : obj V :=
  match o with
  | [] => [(k, v)]
  | (k', v') :: o' =>
      if str_eqb k k' then (k', v) :: o' else (k', v') :: put o' k v
  end.

Definition is_digit (c : N) : bool := ((48 <=? c) && (c <=? 57))%N.

Definition decimal_value (k : jsstring) : N :=
  fold_left (fun acc c => (acc * 10 + (c - 48))%N) k 0%N.

(** An array index is a canonical decimal numeral below 2^32 - 1. *)
Definition array_index (k : jsstring) : option N :=
  match k with
  | [] => None
  | [48%N] => Some 0%N
  | 48%N :: _ => None
  | _ =>
      if forallb is_digit k && (decimal_value k <? 4294967295)%N
      then Some (decimal_value k) else None
  end.

Definition is_index (k : jsstring) : bool :=
  match array_index k with Some _ => true | None => false end.

Definition index_of (k : jsstring) : N :=
  match array_index k with Some n => n | None => 0%N end.

(** [Array.prototype.sort]: stable; [after x y] says that the comparator is
    positive on (x, y), that is, x has to come after y.  An element is put
    in front of the first element it need not follow. *)
Fixpoint insert_sorted {A} (after : A -> A -> bool) (x : A) (l : list A)
  : list A :=
  match l with
  | [] => [x]
  | y :: ys =>
      if after x y then y :: insert_sorted after x ys else x :: y :: ys
  end.

Definition sort {A} (after : A -> A -> bool) (l : list A) : list A :=
  fold_right (insert_sorted after) [] l.

(** [Object.entries(o)], [Object.keys(o)], [Object.values(o)] *)
Definition entries {V} (o : obj V) : list (jsstring * V) :=
  sort (fun x y => (index_of (fst y) <? index_of (fst x))%N)
       (filter (fun e => is_index (fst e)) o)
  ++ filter (fun e => negb (is_index (fst e))) o.

Definition keys {V} (o : obj V) : list jsstring := map fst (entries o).

Definition values {V} (o : obj V) : list V := map snd (entries o).

(** [xs.slice(0, k)] and [xs.slice(-k)] *)
Definition take {A} (k : nat) (l : list A) : list A := firstn k l.

Definition take_last {A} (k : nat) (l : list A) : list A :=
  skipn (length l - k) l.

(** ** Numbers *)

Inductive number : Type :=
| Num (r : R)
| Infinity (negative : bool)
| NaN.

Definition of_nat (n : nat) : number := Num (INR n).

Definition Req_b (a b : R) : bool := if Req_dec_T a b then true else false.
Definition Rlt_b (a b : R) : bool := if Rlt_dec a b then true else false.
Definition Rle_b (a b : R) : bool := if Rle_dec a b then true else false.

Definition nadd (a b : number) : number :=
  match a, b with
  | NaN, _ | _, NaN => NaN
  | Num x, Num y => Num (x + y)%R
  | Infinity s, Num _ | Num _, Infinity s => Infinity s
  | Infinity s, Infinity t => if Bool.eqb s t then Infinity s else NaN
  end.

Definition nneg (a : number) : number :=
  match a with
  | Num x => Num (- x)%R
  | Infinity s => Infinity (negb s)
  | NaN => NaN
  end.

Definition nsub (a b : number) : number := nadd a (nneg b).

Definition nmul (a b : number) : number :=
  match a, b with
  | NaN, _ | _, NaN => NaN
  | Num x, Num y => Num (x * y)%R
  | Infinity s, Num y | Num y, Infinity s =>
      if Req_b y 0%R then NaN else Infinity (xorb s (Rlt_b y 0%R))
  | Infinity s, Infinity t => Infinity (xorb s t)
  end.

(** Division: 0/0 is NaN, x/0 is an infinity. *)
Definition ndiv (a b : number) : number :=
  match a, b with
  | NaN, _ | _, NaN => NaN
  | Num x, Num y =>
      if Req_b y 0%R
      then (if Req_b x 0%R then NaN else Infinity (Rlt_b x 0%R))
      else Num (x / y)%R
  | Num _, Infinity _ => Num 0%R
  | Infinity s, Num y => Infinity (xorb s (Rlt_b y 0%R))
  | Infinity _, Infinity _ => NaN
  end.

(** [a > b], [a >= b], [a === 0]: false as soon as NaN is involved. *)
Definition ngt (a b : number) : bool :=
  match a, b with
  | Num x, Num y => Rlt_b y x
  | Infinity false, Num _ | Num _, Infinity true
  | Infinity false, Infinity true => true
  | _, _ => false
  end.

Definition nge (a b : number) : bool :=
  match a, b with
  | Num x, Num y => Rle_b y x
  | Infinity false, Num _ | Num _, Infinity true => true
  | Infinity s, Infinity t => orb (negb s) t
  | _, _ => false
  end.

Definition is_zero (a : number) : bool :=
  match a with Num x => Req_b x 0%R | _ => false end.

(** [v || 0] for a property read: undefined, 0 and NaN are falsy. *)
Definition or_zero (o : option number) : number :=
  match o with
  | Some (Num x) => Num x
  | Some (Infinity s) => Infinity s
  | Some NaN | None => Num 0%R
  end.

(** A number is truthy unless it is 0 or NaN. *)
Definition truthy_num (a : number) : bool :=
  match a with
  | Num x => negb (Req_b x 0%R)
  | Infinity _ => true
  | NaN => false
  end.

Definition Math_sqrt (a : number) : number :=
  match a with
  | Num x => if Rlt_b x 0%R then NaN else Num (sqrt x)
  | Infinity false => Infinity false
  | Infinity true | NaN => NaN
  end.

Definition Math_log (a : number) : number :=
  match a with
  | Num x =>
      if Rlt_b x 0%R then NaN
      else if Req_b x 0%R then Infinity true else Num (ln x)
  | Infinity false => Infinity false
  | Infinity true | NaN => NaN
  end.

(** ** Outcomes of calls that may throw *)

Inductive result (A : Type) : Type :=
| Ok (a : A)
| Throw (message : jsstring).

Arguments Ok {A} a.
Arguments Throw {A} message.

End JS.

(* ================================================================== *)
(** * utils/text.js *)
(* ================================================================== *)

Module Text.
Import JS.

Definition CHINESE_STOPWORDS : list jsstring := map str
  [ "的"; "了"; "在"; "是"; "我"; "有"; "和"; "就"; "不"; "人"; "都"; "一";
    "一個"; "上"; "也"; "很"; "到"; "說"; "要"; "去"; "你"; "會"; "著";
    "沒有"; "看"; "好"; "自己"; "這"; "那"; "什麼"; "他"; "她"; "它"; "們";
    "這個"; "那個"; "如果"; "但是"; "因為"; "所以"; "可以"; "沒"; "把";
    "讓"; "被"; "與"; "或"; "及"; "之"; "等"; "能"; "將"; "從"; "為"; "對";
    "而"; "以"; "其"; "中"; "更" ]%string.

Definition ENGLISH_STOPWORDS : list jsstring := map str
  [ "the"; "a"; "an"; "and"; "or"; "but"; "in"; "on"; "at"; "to"; "for";
    "of"; "with"; "by"; "from"; "as"; "is"; "was"; "are"; "were"; "been";
    "be"; "have"; "has"; "had"; "do"; "does"; "did"; "will"; "would";
    "could"; "should"; "may"; "might"; "must"; "can"; "this"; "that";
    "these"; "those"; "it"; "its"; "they"; "them"; "their"; "he"; "she";
    "him"; "her"; "his"; "we"; "us"; "our"; "you"; "your"; "i"; "me"; "my";
    "not"; "no"; "if"; "then"; "than"; "so"; "such"; "when"; "where";
    "what"; "which"; "who"; "whom"; "how"; "why"; "all"; "each"; "every";
    "both"; "few"; "more"; "most"; "other"; "some"; "any"; "only"; "own";
    "same"; "just"; "also"; "very"; "even"; "still"; "about"; "after";
    "before" ]%string.

(** [code >= 0x4E00 && code <= 0x9FFF] *)
Definition isChinese (c : N) : bool := ((19968 <=? c) && (c <=? 40959))%N.

Definition is_az (c : N) : bool := ((97 <=? c) && (c <=? 122))%N.

Inductive charType : Type := chinese | english | numeric.

Definition charType_eqb (a b : charType) : bool :=
  match a, b with
  | chinese, chinese | english, english | numeric, numeric => true
  | _, _ => false
  end.

Definition type_is (t : option charType) (k : charType) : bool :=
  match t with Some t' => charType_eqb t' k | None => false end.

(** The three loop variables of [tokenize]. *)
Record scanner : Type := mkScanner
  { tokens_so_far : list jsstring;
    currentToken : jsstring;
    currentType : option charType }.

(** One iteration of [for (const char of text.toLowerCase())]. *)
Definition scan (s : scanner) (char : N) : scanner :=
  let toks := tokens_so_far s in
  let cur := currentToken s in
  let ty := currentType s in
  if isChinese char then
    let toks1 :=
      if truthy_str cur && negb (type_is ty chinese) then toks ++ [cur]
      else toks in
    mkScanner (toks1 ++ [[char]]) [] (Some chinese)
  else if is_az char then
    if negb (type_is ty english) && truthy_str cur
    then mkScanner (toks ++ [cur]) [char] (Some english)
    else mkScanner toks (cur ++ [char]) (Some english)
  else if is_digit char then
    if negb (type_is ty numeric) && truthy_str cur
    then mkScanner (toks ++ [cur]) [char] (Some numeric)
    else mkScanner toks (cur ++ [char]) (Some numeric)
  else
    if truthy_str cur then mkScanner (toks ++ [cur]) [] None
    else mkScanner toks cur None.

Definition tokenize (text : jsstring) : list jsstring :=
  if negb (truthy_str text) then []
  else
    let s := fold_left scan (toLowerCase text) (mkScanner [] [] None) in
    if truthy_str (currentToken s)
    then tokens_so_far s ++ [currentToken s]
    else tokens_so_far s.

Definition first_is_chinese (token : jsstring) : bool :=
  match token with c :: _ => isChinese c | [] => false end.

Definition removeStopwords (tokens : list jsstring) : list jsstring :=
  filter (fun token =>
            if (js_length token =? 1) && first_is_chinese token
            then negb (has CHINESE_STOPWORDS token)
            else negb (has ENGLISH_STOPWORDS token) && (1 <? js_length token))
         tokens.

(** [for (i = 0; i <= tokens.length - n; i++)
       ngrams.push(tokens.slice(i, i + n).join(''))] *)
Definition extractNgrams (tokens : list jsstring) (n : nat) : list jsstring :=
  map (fun i => concat (firstn n (skipn i tokens)))
      (seq 0 (length tokens + 1 - n)).

(** [freq[token] = (freq[token] || 0) + 1] *)
Definition count_token (freq : obj nat) (token : jsstring) : obj nat :=
  put freq token (match get freq token with Some n => n | None => 0 end + 1).

Definition termFrequency (tokens : list jsstring) : obj nat :=
  fold_left count_token tokens [].

Record preprocessed : Type := mkPreprocessed
  { tokens : list jsstring;
    bigrams : list jsstring;
    all : list jsstring }.

Definition preprocess (text : jsstring) : preprocessed :=
  let filtered := removeStopwords (tokenize text) in
  let bigrams := extractNgrams filtered 2 in
  mkPreprocessed filtered bigrams (filtered ++ bigrams).

(** [intersection.size / union.size], with no test of the divisor. *)
Definition jaccardSimilarity (set1 set2 : list jsstring) : number :=
  let intersection := mkSet (filter (has set2) set1) in
  let union := mkSet (set1 ++ set2) in
  ndiv (of_nat (length intersection)) (of_nat (length union)).

(** The accumulators [dotProduct], [norm1], [norm2] of [cosineSimilarity]. *)
Record sums : Type := mkSums
  { dotProduct : number; norm1 : number; norm2 : number }.

Definition accumulate (vec1 vec2 : obj number) (s : sums) (key : jsstring)
  : sums :=
  let v1 := or_zero (get vec1 key) in
  let v2 := or_zero (get vec2 key) in
  mkSums (nadd (dotProduct s) (nmul v1 v2))
         (nadd (norm1 s) (nmul v1 v1))
         (nadd (norm2 s) (nmul v2 v2)).

Definition cosineSimilarity (vec1 vec2 : obj number) : number :=
  let keys := mkSet (keys vec1 ++ keys vec2) in
  let s := fold_left (accumulate vec1 vec2) keys
                     (mkSums (Num 0%R) (Num 0%R) (Num 0%R)) in
  if is_zero (norm1 s) || is_zero (norm2 s) then Num 0%R
  else ndiv (dotProduct s) (nmul (Math_sqrt (norm1 s)) (Math_sqrt (norm2 s))).

(** Term counts seen as a vector of numbers. *)
Definition as_vector (tf : obj nat) : obj number :=
  map (fun e => (fst e, of_nat (snd e))) tf.

End Text.


(* ================================================================== *)
(** * Article records *)
(* ================================================================== *)

Module Model.
Import JS.

(** The [savedAt] field as [new Date] reads it. *)
Inductive timestamp : Type :=
| no_date                 (* undefined or the empty string *)
| invalid_date            (* a string that Date cannot parse *)
| date_ms (ms : Z).       (* milliseconds since the epoch *)

(** [new Date(savedAt || 0)]: a missing field is the epoch; [None] is an
    Invalid Date, whose time value is NaN. *)
Definition date_or_epoch (t : timestamp) : option Z :=
  match t with
  | no_date => Some 0%Z
  | invalid_date => None
  | date_ms ms => Some ms
  end.

(** [new Date(savedAt)] *)
Definition date_of (t : timestamp) : option Z :=
  match t with
  | date_ms ms => Some ms
  | _ => None
  end.

Record Article : Type := mkArticle
  { id : jsstring;
    title : option jsstring;
    content : option jsstring;
    summary : option jsstring;
    keyPoints : option (list jsstring);
    url : option jsstring;
    category : option jsstring;
    tags : option (list jsstring);
    savedAt : timestamp }.

End Model.

(* ================================================================== *)
(** * embeddings/vectorizer.js *)
(* ================================================================== *)

Module Vectorizer.
Import JS.

(** The metadata that SemanticSearch attaches to a document. *)
Record metadata : Type := mkMetadata
  { m_title : option jsstring;
    m_category : option jsstring;
    m_tags : list jsstring;
    m_savedAt : Model.timestamp }.

Record document : Type := mkDocument
  { d_id : jsstring;
    d_tokens : list jsstring;
    d_text : jsstring;
    d_metadata : metadata;
    d_termFreq : obj nat }.

Record docVector : Type := mkDocVector
  { v_id : jsstring;
    vector : obj number;
    v_metadata : metadata }.

Record scored : Type := mkScored
  { s_id : jsstring;
    s_score : number;
    s_metadata : metadata }.

Record TFIDFVectorizer : Type := mkVectorizer
  { documents : list document;
    vocabulary : obj nat;
    idf : obj number;
    vectors : list docVector;
    fitted : bool }.

(** [constructor()] *)
Definition create : TFIDFVectorizer := mkVectorizer [] [] [] [] false.

Definition addDocument (this : TFIDFVectorizer) (id text : jsstring)
  (meta : metadata) : TFIDFVectorizer :=
  let tokens := Text.all (Text.preprocess text) in
  mkVectorizer
    (documents this
     ++ [mkDocument id tokens text meta (Text.termFrequency tokens)])
    (vocabulary this) (idf this) (vectors this) false.

(** The first loop of [calculateIDF]: in how many documents a term occurs. *)
Definition count_document (docFreq : obj nat) (doc : document) : obj nat :=
  fold_left Text.count_token (mkSet (d_tokens doc)) docFreq.

Definition documentFrequency (docs : list document) : obj nat :=
  fold_left count_document docs [].

(** [Math.log((numDocs + 1) / (freq + 1)) + 1] *)
Definition idf_weight (numDocs freq : nat) : number :=
  nadd (Math_log (ndiv (of_nat (numDocs + 1)) (of_nat (freq + 1))))
       (Num 1%R).

(** One iteration of the second loop: both tables are fields of [this] and
    are written into as they stand. *)
Definition record_term (numDocs : nat) (this : TFIDFVectorizer)
  (e : jsstring * nat) : TFIDFVectorizer :=
  let idf' := put (idf this) (fst e) (idf_weight numDocs (snd e)) in
  let vocabulary' :=
    put (vocabulary this) (fst e) (length (keys (vocabulary this))) in
  mkVectorizer (documents this) vocabulary' idf' (vectors this)
               (fitted this).

Definition calculateIDF (this : TFIDFVectorizer) : TFIDFVectorizer :=
  let numDocs := length (documents this) in
  let docFreq := documentFrequency (documents this) in
  fold_left (record_term numDocs) (entries docFreq) this.

(** [Math.max(...Object.values(termFreq), 1)] *)
Definition maxFreq (termFreq : obj nat) : nat :=
  fold_right Nat.max 1 (values termFreq).

Definition weigh (idf : obj number) (maxFreq : nat) (vector : obj number)
  (e : jsstring * nat) : obj number :=
  match get idf (fst e) with
  | Some w =>
      if truthy_num w
      then put vector (fst e) (nmul (ndiv (of_nat (snd e)) (of_nat maxFreq)) w)
      else vector
  | None => vector
  end.

Definition vectorize (this : TFIDFVectorizer) (termFreq : obj nat)
  : obj number :=
  fold_left (weigh (idf this) (maxFreq termFreq)) (entries termFreq) [].

(** The message of the error thrown by [fit]. *)
Definition no_documents : jsstring := str "沒有文檔可以訓練".

Definition fit (this : TFIDFVectorizer) : result TFIDFVectorizer :=
  match documents this with
  | [] => Throw no_documents
  | _ :: _ =>
      let this1 := calculateIDF this in
      let vectors' :=
        map (fun doc => mkDocVector (d_id doc)
                                    (vectorize this1 (d_termFreq doc))
                                    (d_metadata doc))
            (documents this1) in
      Ok (mkVectorizer (documents this1) (vocabulary this1) (idf this1)
                       vectors' true)
  end.

Definition transformQuery (this : TFIDFVectorizer) (query : jsstring)
  : obj number :=
  vectorize this (Text.termFrequency (Text.all (Text.preprocess query))).

(** The method repeats the body of the function of utils/text.js. *)
Definition cosineSimilarity (vec1 vec2 : obj number) : number :=
  let keys := mkSet (keys vec1 ++ keys vec2) in
  let s := fold_left (Text.accumulate vec1 vec2) keys
                     (Text.mkSums (Num 0%R) (Num 0%R) (Num 0%R)) in
  if is_zero (Text.norm1 s) || is_zero (Text.norm2 s) then Num 0%R
  else ndiv (Text.dotProduct s)
            (nmul (Math_sqrt (Text.norm1 s)) (Math_sqrt (Text.norm2 s))).

(** The comparator [(a, b) => b.score - a.score] is positive. *)
Definition lower_score (a b : scored) : bool :=
  ngt (nsub (s_score b) (s_score a)) (Num 0%R).

(** The ranking of [search] once the model is fitted. *)
Definition rank (this : TFIDFVectorizer) (query : jsstring) (topK : nat)
  : list scored :=
  let queryVector := transformQuery this query in
  let scores :=
    map (fun doc => mkScored (v_id doc)
                             (cosineSimilarity queryVector (vector doc))
                             (v_metadata doc))
        (vectors this) in
  take topK
       (sort lower_score
             (filter (fun s => ngt (s_score s) (Num 0%R)) scores)).

Definition search (this : TFIDFVectorizer) (query : jsstring) (topK : nat)
  : result (list scored * TFIDFVectorizer) :=
  if negb (fitted this) then
    match fit this with
    | Throw m => Throw m
    | Ok this1 => Ok (rank this1 query topK, this1)
    end
  else Ok (rank this query topK, this).

End Vectorizer.

(* ================================================================== *)
(** * search/semantic.js *)
(* ================================================================== *)

Module SemanticSearch.
Import JS Model.

(** [articles] is a [Map] from id to the stored copy of the article. *)
Record SemanticSearch : Type := mkSearch
  { vectorizer : Vectorizer.TFIDFVectorizer;
    articles : list (jsstring * Article) }.

Definition create : SemanticSearch := mkSearch Vectorizer.create [].

Definition space : jsstring := [32%N].

(** [[title, content || '', summary || '', ...keyPoints, ...tags].join(' ')] *)
Definition searchableText (a : Article) : jsstring :=
  join space
       ([or_empty (title a); or_empty (content a); or_empty (summary a)]
        ++ or_nil (keyPoints a) ++ or_nil (tags a)).

Definition indexArticle (this : SemanticSearch) (article : Article)
  : SemanticSearch :=
  let stored :=
    mkArticle (id article) (title article) (content article)
              (summary article) (Some (or_nil (keyPoints article)))
              (url article) (category article)
              (Some (or_nil (tags article))) (savedAt article) in
  mkSearch
    (Vectorizer.addDocument (vectorizer this) (id article)
       (searchableText article)
       (Vectorizer.mkMetadata (title article) (category article)
                              (or_nil (tags article)) (savedAt article)))
    (put (articles this) (id article) stored).

Definition indexArticles (this : SemanticSearch) (arts : list Article)
  : result SemanticSearch :=
  let this1 := fold_left indexArticle arts this in
  match Vectorizer.fit (vectorizer this1) with
  | Throw m => Throw m
  | Ok v => Ok (mkSearch v (articles this1))
  end.

(** The characters of the class [。！？.!?]. *)
Definition sentence_end (c : N) : bool :=
  existsb (N.eqb c) [12290%N; 65281%N; 65311%N; 46%N; 33%N; 63%N].

(** [content.split(/[。！？.!?]+/)]: a run of separators ends a piece. *)
Record splitter : Type := mkSplitter
  { pieces : list jsstring; piece : jsstring; in_separator : bool }.

Definition split_step (s : splitter) (c : N) : splitter :=
  if sentence_end c then
    if in_separator s then s
    else mkSplitter (pieces s ++ [piece s]) [] true
  else mkSplitter (pieces s) (piece s ++ [c]) false.

Definition split_sentences (content : jsstring) : list jsstring :=
  let s := fold_left split_step content (mkSplitter [] [] false) in
  pieces s ++ [piece s].

(** White space and line terminators, as [String.prototype.trim] sees them. *)
Definition white_space (c : N) : bool :=
  existsb (N.eqb c)
    [9%N; 10%N; 11%N; 12%N; 13%N; 32%N; 160%N; 5760%N; 8232%N; 8233%N;
     8239%N; 8287%N; 12288%N; 65279%N]
  || ((8192 <=? c) && (c <=? 8202))%N.

Fixpoint trim_start (s : jsstring) : jsstring :=
  match s with
  | c :: s' => if white_space c then trim_start s' else s
  | [] => []
  end.

Definition trim (s : jsstring) : jsstring :=
  rev (trim_start (rev (trim_start s))).

Record scoredSentence : Type := mkScoredSentence
  { sentence : jsstring; sentence_score : number }.

Definition lower_sentence (a b : scoredSentence) : bool :=
  ngt (nsub (sentence_score b) (sentence_score a)) (Num 0%R).

Definition extractRelevantSnippets (query content : jsstring)
  (maxSnippets : nat) : list jsstring :=
  let queryTokens := mkSet (Text.tokens (Text.preprocess query)) in
  let sentences :=
    filter (fun s => 15 <? js_length (trim s)) (split_sentences content) in
  let scored :=
    map (fun sentence =>
           let sentTokens := Text.tokens (Text.preprocess sentence) in
           let overlap := length (filter (has queryTokens) sentTokens) in
           mkScoredSentence
             (trim sentence)
             (ndiv (of_nat overlap)
                   (of_nat (Nat.max (length queryTokens) 1))))
        sentences in
  map sentence
      (take maxSnippets
            (sort lower_sentence
                  (filter (fun s => ngt (sentence_score s) (Num 0%R))
                          scored))).

(** A hit of [search]: the vectorizer's result and what the article adds. *)
Record hit : Type := mkHit
  { h_id : jsstring;
    h_score : number;
    h_metadata : Vectorizer.metadata;
    h_title : jsstring;
    h_category : option jsstring;
    h_tags : list jsstring;
    h_url : option jsstring;
    h_savedAt : timestamp;
    h_snippets : option (list jsstring);
    h_summary : option jsstring;
    h_keyPoints : option (list jsstring) }.

Record options : Type := mkOptions
  { topK : nat; minScore : number; includeSnippets : bool }.

(** [{ topK = 5, minScore = 0.1, includeSnippets = true } = options] *)
Definition default_minScore : number := Num (1 / 10)%R.

Definition unknown : jsstring := str "Unknown".

Definition bind_opt {A B} (o : option A) (f : A -> option B) : option B :=
  match o with Some a => f a | None => None end.

Definition truthy_opt (o : option jsstring) : option jsstring :=
  match o with
  | Some s => if truthy_str s then Some s else None
  | None => None
  end.

Definition enhance (this : SemanticSearch) (query : jsstring)
  (includeSnippets : bool) (r : Vectorizer.scored) : hit :=
  let article := get (articles this) (Vectorizer.s_id r) in
  mkHit (Vectorizer.s_id r) (Vectorizer.s_score r) (Vectorizer.s_metadata r)
        (match truthy_opt (bind_opt article title) with
         | Some t => t
         | None => unknown
         end)
        (bind_opt article category)
        (or_nil (bind_opt article tags))
        (bind_opt article url)
        (match article with Some a => savedAt a | None => no_date end)
        (if includeSnippets then
           match truthy_opt (bind_opt article content) with
           | Some c => Some (extractRelevantSnippets query c 3)
           | None => None
           end
         else None)
        (truthy_opt (bind_opt article summary))
        (bind_opt article keyPoints).

Definition search (this : SemanticSearch) (query : jsstring) (o : options)
  : result (list hit * SemanticSearch) :=
  let fitted_vectorizer :=
    if negb (Vectorizer.fitted (vectorizer this))
    then Vectorizer.fit (vectorizer this)
    else Ok (vectorizer this) in
  match fitted_vectorizer with
  | Throw m => Throw m
  | Ok v1 =>
      match Vectorizer.search v1 query (topK o) with
      | Throw m => Throw m
      | Ok (results, v2) =>
          let this2 := mkSearch v2 (articles this) in
          Ok (map (enhance this2 query (includeSnippets o))
                  (filter (fun r => nge (Vectorizer.s_score r) (minScore o))
                          results),
              this2)
      end
  end.

Record contextEntry : Type := mkContextEntry
  { c_title : jsstring;
    relevance : number;
    c_snippets : list jsstring;
    c_summary : option jsstring;
    c_keyPoints : option (list jsstring);
    source : option jsstring }.

Record answerContext : Type := mkAnswerContext
  { question : jsstring;
    results : list contextEntry;
    hasRelevantInfo : bool }.

(** The relevance gate. *)
Definition gate : number := Num (15 / 100)%R.

(** [results.length > 0 && results[0].score > 0.15] *)
Definition relevant (results : list hit) : bool :=
  (0 <? length results)
  && match results with
     | top :: _ => ngt (h_score top) gate
     | [] => false
     end.

Definition searchWithContext (this : SemanticSearch) (question : jsstring)
  (topK : nat) : result (answerContext * SemanticSearch) :=
  match search this question (mkOptions topK default_minScore true) with
  | Throw m => Throw m
  | Ok (results, this1) =>
      let context :=
        map (fun r => mkContextEntry (h_title r) (h_score r)
                                     (or_nil (h_snippets r)) (h_summary r)
                                     (h_keyPoints r) (h_url r))
            results in
      Ok (mkAnswerContext question context (relevant results), this1)
  end.

Definition findSimilar (this : SemanticSearch) (articleId : jsstring)
  (topK : nat) : result (list hit * SemanticSearch) :=
  match get (articles this) articleId with
  | None => Ok ([], this)
  | Some article =>
      let searchText :=
        join space ([or_empty (title article); or_empty (summary article)]
                    ++ or_nil (keyPoints article)) in
      match search this searchText
                   (mkOptions (topK + 1) default_minScore true) with
      | Throw m => Throw m
      | Ok (results, this1) =>
          Ok (take topK
                   (filter (fun r => negb (str_eqb (h_id r) articleId))
                           results),
              this1)
      end
  end.

End SemanticSearch.

(* ================================================================== *)
(** * analysis/trends.js *)
(* ================================================================== *)

Module Trends.
Import JS Model.

(** Arrays are objects: the analyzer keeps a reference to the array it was
    given, and so does whoever passed it.  The store maps a reference to
    the current contents of the array. *)
Definition ref := nat.
Definition store := list (list Article).

Definition read (h : store) (r : ref) : list Article := nth r h [].

Fixpoint write (h : store) (r : ref) (v : list Article) : store :=
  match h, r with
  | [], _ => []
  | _ :: h', O => v :: h'
  | a :: h', S r' => a :: write h' r' v
  end.

(** A fresh array. *)
Definition alloc (h : store) (v : list Article) : ref * store :=
  (length h, h ++ [v]).

Record TrendAnalyzer : Type := mkAnalyzer { articles : ref }.

(** [setArticles(articles)] keeps the reference. *)
Definition setArticles (this : TrendAnalyzer) (articles : ref)
  : TrendAnalyzer := mkAnalyzer articles.

(** The comparator [new Date(a.savedAt || 0) - new Date(b.savedAt || 0)] is
    positive; a NaN difference is not. *)
Definition later (a b : Article) : bool :=
  match date_or_epoch (savedAt a), date_or_epoch (savedAt b) with
  | Some x, Some y => (0 <? x - y)%Z
  | _, _ => false
  end.

(** [sortByDate(ascending)] sorts a copy, [[...this.articles]]. *)
Definition sortByDate (this : TrendAnalyzer) (ascending : bool) (h : store)
  : list Article :=
  sort (fun a b => if ascending then later a b else later b a)
       (read h (articles this)).

Definition opt_test {A} (o : option A) (f : A -> bool) : bool :=
  match o with Some a => f a | None => false end.

(** The filter of [buildTimeline].  Titles and contents are compared up to
    the case of ASCII letters (see [toLowerCase]). *)
Definition mentions (tag : jsstring) (a : Article) : bool :=
  opt_test (tags a) (fun ts => has ts tag)
  || opt_test (title a)
              (fun t => includes (toLowerCase t) (toLowerCase tag))
  || opt_test (content a)
              (fun c => includes (toLowerCase c) (toLowerCase tag)).

Record timelineEntry : Type := mkEntry
  { date : timestamp;
    e_title : option jsstring;
    e_id : jsstring;
    e_category : option jsstring;
    e_keyPoints : list jsstring }.

Definition entry_of (a : Article) : timelineEntry :=
  mkEntry (savedAt a) (title a) (id a) (category a)
          (match keyPoints a with Some ps => take 2 ps | None => [] end).

(** [if (tag)]: null, undefined and the empty string are falsy. *)
Definition tag_given (tag : option jsstring) : option jsstring :=
  match tag with
  | Some t => if truthy_str t then Some t else None
  | None => None
  end.

(** [filtered] starts as the very array of the analyzer and is replaced by
    a fresh one only when a tag is given; [sort] then sorts [filtered] in
    place. *)
Definition buildTimeline (this : TrendAnalyzer) (tag : option jsstring)
  (h : store) : list timelineEntry * store :=
  let '(filtered, h1) :=
    match tag_given tag with
    | Some t => alloc h (filter (mentions t) (read h (articles this)))
    | None => (articles this, h)
    end in
  let h2 := write h1 filtered (sort later (read h1 filtered)) in
  (map entry_of (read h2 filtered), h2).

Inductive trendClass : Type := rising | stable | declining | new | no_data.

Record trendReport : Type := mkReport
  { r_tag : option jsstring;
    articleCount : nat;
    trend : trendClass;
    recentCount : nat;
    olderCount : nat;
    firstMention : option timestamp;
    lastMention : option timestamp;
    timeline : list timelineEntry;
    keyPointsEvolution : list (timestamp * list jsstring) }.

Definition day : Z := (24 * 60 * 60 * 1000)%Z.

(** [new Date(a.date) > bound], false for an Invalid Date. *)
Definition after_ms (t : timestamp) (bound : Z) : bool :=
  match date_of t with Some d => (bound <? d)%Z | None => false end.

Definition not_after_ms (t : timestamp) (bound : Z) : bool :=
  match date_of t with Some d => (d <=? bound)%Z | None => false end.

Definition count (n : nat) : Q := inject_Z (Z.of_nat n).

Definition Qlt_b (a b : Q) : bool := negb (Qle_bool b a).

(** The if-else chain of [analyzeTrend].  Counts times 1.5 and 0.5 are
    exact in binary floating point, so rationals render them as they are. *)
Definition classify (recent older timelineLength : nat) : trendClass :=
  if Qlt_b (count older * (3 # 2))%Q (count recent) then rising
  else if Qlt_b (count recent) (count older * (1 # 2))%Q && (0 <? older)
  then declining
  else if timelineLength =? 1 then new
  else stable.

(** [analyzeTrend(tag)] when the clock reads [now].  The descriptive texts
    of the report are determined by [trend] and are left out. *)
Definition analyzeTrend (this : TrendAnalyzer) (tag : option jsstring)
  (now : Z) (h : store) : trendReport * store :=
  let '(timeline, h1) := buildTimeline this tag h in
  match timeline with
  | [] => (mkReport tag 0 no_data 0 0 None None [] [], h1)
  | _ :: _ =>
      let thirtyDaysAgo := (now - 30 * day)%Z in
      let sixtyDaysAgo := (now - 60 * day)%Z in
      let recentCount :=
        length (filter (fun a => after_ms (date a) thirtyDaysAgo)
                       timeline) in
      let olderCount :=
        length (filter (fun a => after_ms (date a) sixtyDaysAgo
                                 && not_after_ms (date a) thirtyDaysAgo)
                       timeline) in
      let keyPointsOverTime :=
        filter (fun e => 0 <? length (snd e))
               (map (fun a => (date a, e_keyPoints a)) timeline) in
      (mkReport tag (length timeline)
                (classify recentCount olderCount (length timeline))
                recentCount olderCount
                (option_map date (hd_error timeline))
                (option_map date (last (map Some timeline) None))
                (take_last 10 timeline)
                (take_last 5 keyPointsOverTime),
       h1)
  end.

End Trends.

(* ================================================================== *)
(** * analysis/connections.js *)
(* ================================================================== *)

Module Connections.
Import JS Model.

Record relation : Type := mkRelation
  { tagOverlap : number;
    topicSimilarity : number;
    keyPointSimilarity : number;
    totalScore : number;
    types : list jsstring;
    sharedTags : list jsstring }.

Definition space : jsstring := [32%N].

(** [[title || '', summary || '', ...(keyPoints || [])].join(' ')] *)
Definition topicText (a : Article) : jsstring :=
  join space ([or_empty (title a); or_empty (summary a)]
              ++ or_nil (keyPoints a)).

Definition keyPointText (a : Article) : jsstring :=
  join space (or_nil (keyPoints a)).

Definition token_set (text : jsstring) : list jsstring :=
  mkSet (Text.tokens (Text.preprocess text)).

(** [article1.category === article2.category && article1.category] *)
Definition same_category (a b : Article) : bool :=
  match category a, category b with
  | Some x, Some y => str_eqb x y && truthy_str x
  | _, _ => false
  end.

(** [Math.abs(date1 - date2) / (1000 * 60 * 60 * 24)] *)
Definition daysDiff (a b : Article) : number :=
  match date_or_epoch (savedAt a), date_or_epoch (savedAt b) with
  | Some x, Some y =>
      ndiv (Num (IZR (Z.abs (x - y)))) (Num (IZR (1000 * 60 * 60 * 24)))
  | _, _ => NaN
  end.

Definition push_if (b : bool) (label : jsstring) (types : list jsstring)
  : list jsstring :=
  if b then types ++ [label] else types.

Definition calculateRelation (article1 article2 : Article) : relation :=
  (* 1. tag overlap *)
  let tags1 := mkSet (or_nil (tags article1)) in
  let tags2 := mkSet (or_nil (tags article2)) in
  let sharedTags := filter (has tags2) tags1 in
  let tagOverlap :=
    ndiv (of_nat (length sharedTags))
         (of_nat (Nat.max (Nat.max (length tags1) (length tags2)) 1)) in
  let types1 := push_if (2 <=? length sharedTags) (str "共同主題") [] in
  (* 2. title similarity *)
  let titleSimilarity :=
    Text.jaccardSimilarity (token_set (or_empty (title article1)))
                           (token_set (or_empty (title article2))) in
  let types2 :=
    push_if (ngt titleSimilarity (Num (3 / 10)%R)) (str "標題相似") types1 in
  (* 3. topic similarity *)
  let tf1 :=
    Text.termFrequency (Text.tokens (Text.preprocess (topicText article1))) in
  let tf2 :=
    Text.termFrequency (Text.tokens (Text.preprocess (topicText article2))) in
  let topicSimilarity :=
    Text.cosineSimilarity (Text.as_vector tf1) (Text.as_vector tf2) in
  (* 4. key point similarity *)
  let kp1 := keyPointText article1 in
  let kp2 := keyPointText article2 in
  let keyPointSimilarity :=
    if truthy_str kp1 && truthy_str kp2
    then Text.jaccardSimilarity (token_set kp1) (token_set kp2)
    else Num 0%R in
  let types3 :=
    push_if (truthy_str kp1 && truthy_str kp2
             && ngt keyPointSimilarity (Num (2 / 10)%R))
            (str "觀點相關") types2 in
  (* 5. total score *)
  let totalScore :=
    nadd (nadd (nmul tagOverlap (Num (4 / 10)%R))
               (nmul topicSimilarity (Num (4 / 10)%R)))
         (nmul keyPointSimilarity (Num (2 / 10)%R)) in
  (* 6. relation kinds *)
  let types4 := push_if (same_category article1 article2)
                        (str "同類文章") types3 in
  let types5 :=
    push_if (nge (Num 7%R) (daysDiff article1 article2)
             && ngt totalScore (Num (2 / 10)%R))
            (str "近期相關") types4 in
  mkRelation tagOverlap topicSimilarity keyPointSimilarity totalScore
             types5 sharedTags.

End Connections.

(* ================================================================== *)
(** * QAEngine *)
(* ================================================================== *)

Module QA.
Import JS.

Inductive questionType : Type :=
| definition | comparison | listing | reason | summary | trend | opinion
| general.

(** The regular expressions of [patterns] are of two shapes.  The flag [i]
    on a pattern of lower-case ASCII letters changes nothing for a subject
    that has been lower-cased. *)
Inductive regex : Type :=
| lit (s : jsstring)              (* /s/ and /s/i *)
| lit_any_lit (a b : jsstring).   (* /a.*b/ *)

(** The dot matches everything but a line terminator. *)
Definition line_terminator (c : N) : bool :=
  existsb (N.eqb c) [10%N; 13%N; 8232%N; 8233%N].

(** [b] occurs in [s] with no line terminator in front of it. *)
Fixpoint reaches (b s : jsstring) : bool :=
  starts_with b s ||
  match s with
  | c :: s' => negb (line_terminator c) && reaches b s'
  | [] => false
  end.

Fixpoint any_then (a b s : jsstring) : bool :=
  (starts_with a s && reaches b (skipn (length a) s)) ||
  match s with
  | _ :: s' => any_then a b s'
  | [] => false
  end.

(** [regex.test(subject)] *)
Definition test (r : regex) (subject : jsstring) : bool :=
  match r with
  | lit s => includes subject s
  | lit_any_lit a b => any_then a b subject
  end.

Definition patterns : list (questionType * list regex) :=
  [ (definition,
     [lit (str "什麼是"); lit (str "何謂"); lit (str "怎麼理解");
      lit (str "what is"); lit (str "define"); lit (str "explain")]);
    (comparison,
     [lit_any_lit (str "和") (str "比"); lit (str "區別"); lit (str "差異");
      lit (str "不同"); lit (str "vs"); lit (str "compare");
      lit (str "difference")]);
    (listing,
     [lit (str "有哪些"); lit (str "列出"); lit (str "包括");
      lit (str "what are"); lit (str "list")]);
    (reason,
     [lit (str "為什麼"); lit (str "原因"); lit (str "why");
      lit (str "reason")]);
    (summary,
     [lit (str "總結"); lit (str "摘要"); lit (str "概括");
      lit (str "summarize"); lit (str "summary")]);
    (trend,
     [lit (str "趨勢"); lit (str "發展"); lit (str "未來");
      lit (str "trend"); lit (str "future")]);
    (opinion,
     [lit (str "觀點"); lit (str "看法"); lit (str "認為");
      lit (str "opinion"); lit (str "think"); lit (str "view")]) ].

(** The inner loop: [for (const regex of regexList) if (regex.test(q))]. *)
Fixpoint any_matches (regexList : list regex) (q : jsstring) : bool :=
  match regexList with
  | [] => false
  | regex :: rest => if test regex q then true else any_matches rest q
  end.

(** The outer loop over [Object.entries(patterns)], returning at the first
    hit. *)
Fixpoint first_type (groups : list (questionType * list regex))
  (q : jsstring) : option questionType :=
  match groups with
  | [] => None
  | (type, regexList) :: rest =>
      if any_matches regexList q then Some type else first_type rest q
  end.

Definition analyzeQuestion (question : jsstring) : questionType :=
  let questionLower := toLowerCase question in
  match first_type patterns questionLower with
  | Some type => type
  | None => general
  end.

End QA.

(* ================================================================== *)
(** * utils/text.js: keywords *)
(* ================================================================== *)

Module Keywords.
Import JS.




End Keywords.

(* ================================================================== *)
(** * search/semantic.js: clusterByTopic *)
(* ================================================================== *)

Module Clusters.
Import JS Model.






End Clusters.

(* ================================================================== *)
(** * analysis/trends.js: hot and emerging topics *)
(* ================================================================== *)

Module Topics.
Import JS Model Trends.













End Topics.

(* ================================================================== *)
(** * analysis/connections.js: ConnectionDiscovery *)
(* ================================================================== *)

Module Discovery.
Import JS Model Connections.

Record connection : Type := mkConnection
  { targetId : jsstring;
    targetTitle : option jsstring;
    score : number;
    c_types : list jsstring;
    c_sharedTags : list jsstring }.

Record ConnectionDiscovery : Type := mkDiscovery
  { articles : list Article;
    connectionGraph : obj (list connection) }.

(** [constructor()] and [setArticles(articles)] *)
Definition create : ConnectionDiscovery := mkDiscovery [] [].

Definition setArticles (this : ConnectionDiscovery) (arts : list Article)
  : ConnectionDiscovery := mkDiscovery arts [].

(** The comparator [(a, b) => b.score - a.score] is positive. *)
Definition weaker (a b : connection) : bool :=
  ngt (nsub (score b) (score a)) (Num 0%R).

(** The articles of an array with their indices. *)
Definition indexed (arts : list Article) : list (nat * Article) :=
  combine (seq 0 (length arts)) arts.

(** The inner loop of [buildConnectionGraph] for the article at index i,
    followed by the sort of its list. *)
Definition edges_from (arts : list Article) (minScore : number) (i : nat)
  (article1 : Article) : list connection :=
  sort weaker
    (flat_map
       (fun p =>
          if i =? fst p then []
          else
            let relation := calculateRelation article1 (snd p) in
            if nge (totalScore relation) minScore
            then [mkConnection (id (snd p)) (title (snd p))
                               (totalScore relation) (types relation)
                               (sharedTags relation)]
            else [])
       (indexed arts)).

Definition buildConnectionGraph (this : ConnectionDiscovery)
  (minScore : number) : ConnectionDiscovery :=
  mkDiscovery
    (articles this)
    (fold_left
       (fun graph p =>
          put graph (id (snd p))
              (edges_from (articles this) minScore (fst p) (snd p)))
       (indexed (articles this)) []).

(** [minScore = 0.15] *)
Definition default_minScore : number := Num (15 / 100)%R.

Definition findConnections (this : ConnectionDiscovery)
  (articleId : jsstring) (topK : nat)
  : list connection * ConnectionDiscovery :=
  let this1 :=
    match get (connectionGraph this) articleId with
    | Some _ => this
    | None => buildConnectionGraph this default_minScore
    end in
  (take topK
        (match get (connectionGraph this1) articleId with
         | Some l => l
         | None => []
         end),
   this1).






Record preview : Type := mkPreview
  { p_id : jsstring;
    p_title : option jsstring;
    p_category : option jsstring;
    p_score : number;
    p_types : list jsstring;
    p_sharedTags : list jsstring }.

Definition weaker_preview (a b : preview) : bool :=
  ngt (nsub (p_score b) (p_score a)) (Num 0%R).

Definition findConnectionsForNewArticle (this : ConnectionDiscovery)
  (newArticle : Article) : list preview :=
  take 5
    (sort weaker_preview
       (flat_map
          (fun existing =>
             let relation := calculateRelation newArticle existing in
             if ngt (totalScore relation) (Num (1 / 10)%R)
             then [mkPreview (id existing) (title existing)
                             (category existing) (totalScore relation)
                             (types relation) (sharedTags relation)]
             else [])
          (articles this))).

(** ** findClusters *)

Record node : Type := mkNode { n_id : jsstring; n_title : option jsstring }.

(** The loop variables of the breadth-first search. *)
Record frontier : Type := mkFrontier
  { queue : list jsstring;
    visited : list jsstring;
    cluster : list node }.

(** [this.articles.find(a => a.id === currentId)] *)
Definition find_article (arts : list Article) (currentId : jsstring)
  : option Article :=
  find (fun a => str_eqb (id a) currentId) arts.

(** The targets that one visited article adds to the queue. *)
Definition reachable (graph : obj (list connection)) (visited : list jsstring)
  (currentId : jsstring) : list jsstring :=
  map targetId
      (filter (fun conn => negb (has visited (targetId conn))
                           && ngt (score conn) (Num (3 / 10)%R))
              (match get graph currentId with
               | Some connections => connections
               | None => []
               end)).

(** [while (queue.length > 0)]: at most [fuel] iterations; [None] when
    they do not suffice. *)
Fixpoint search_from (fuel : nat) (this : ConnectionDiscovery) (f : frontier)
  : option frontier :=
  match queue f with
  | [] => Some f
  | currentId :: rest =>
      match fuel with
      | O => None
      | S fuel' =>
          if has (visited f) currentId
          then search_from fuel' this (mkFrontier rest (visited f) (cluster f))
          else
            let visited' := set_add (visited f) currentId in
            let cluster' :=
              match find_article (articles this) currentId with
              | Some a => cluster f ++ [mkNode (id a) (title a)]
              | None => cluster f
              end in
            search_from fuel' this
              (mkFrontier
                 (rest ++ reachable (connectionGraph this) visited' currentId)
                 visited' cluster')
      end
  end.

(** The loop over the articles: the set of visited ids and the clusters
    found so far. *)
Fixpoint grow_clusters (fuel : nat) (this : ConnectionDiscovery)
  (todo : list Article) (seen : list jsstring) (clusters : list (list node))
  : option (list (list node)) :=
  match todo with
  | [] => Some clusters
  | article :: todo' =>
      if has seen (id article)
      then grow_clusters fuel this todo' seen clusters
      else
        match search_from fuel this (mkFrontier [id article] seen []) with
        | None => None
        | Some f =>
            grow_clusters fuel this todo' (visited f)
              (if 2 <=? length (cluster f) then clusters ++ [cluster f]
               else clusters)
        end
  end.

(** The comparator [(a, b) => b.length - a.length] is positive. *)
Definition smaller (a b : list node) : bool := length a <? length b.

(** [findClusters()], the search loops being given [fuel] iterations each. *)
Definition findClusters (fuel : nat) (this : ConnectionDiscovery)
  : option (list (list node) * ConnectionDiscovery) :=
  let this1 := buildConnectionGraph this (Num (25 / 100)%R) in
  match grow_clusters fuel this1 (articles this1) [] [] with
  | None => None
  | Some clusters => Some (sort smaller clusters, this1)
  end.

End Discovery.

(* ================================================================== *)
(** * analysis/insights.js: deduplicatePoints *)
(* ================================================================== *)

Module Insights.
Import JS.







End Insights.


(* ================================================================== *)
(** * Sample data *)
(* ================================================================== *)

Module Samples.
Import JS Model.

Definition bare (id : jsstring) : Article :=
  mkArticle id None None None None None None None no_date.

(** Two articles whose only key point consists of stop words. *)
Definition slogan : Article :=
  mkArticle (str "a") None None None (Some [str "We can do it"]) None None
            None no_date.

Definition retort : Article :=
  mkArticle (str "b") None None None (Some [str "Why not"]) None None None
            no_date.

(** Two articles carrying the same two tags in opposite orders. *)
Definition tagged_xy : Article :=
  mkArticle (str "a") None None None None None None
            (Some [str "x"; str "y"]) no_date.

Definition tagged_yx : Article :=
  mkArticle (str "b") None None None None None None
            (Some [str "y"; str "x"]) no_date.

(** The three documents of the search scenario. *)
Definition doc_a : Article :=
  mkArticle (str "a") (Some (str "RWA tokenization")) None None
            (Some [str "RWA needs redemption"]) None None
            (Some [str "RWA"]) no_date.

Definition doc_b : Article :=
  mkArticle (str "b") (Some (str "Stablecoin future")) None None
            (Some [str "Stablecoin needs settlement"]) None None
            (Some [str "RWA"; str "DeFi"]) no_date.

Definition doc_c : Article :=
  mkArticle (str "c") (Some (str "AI in finance")) None None
            (Some [str "AI automates trading"]) None None
            (Some [str "AI"]) no_date.

Definition corpus : list Article := [doc_a; doc_b; doc_c].

(** 2024-01-01 and 2024-02-01, in milliseconds. *)
Definition jan_1 : Z := 1704067200000%Z.
Definition feb_1 : Z := 1706745600000%Z.

Definition january : Article :=
  mkArticle (str "jan") (Some (str "RWA tokenization")) None None None None
            None (Some [str "RWA"]) (date_ms jan_1).

Definition february : Article :=
  mkArticle (str "feb") (Some (str "Stablecoin future")) None None None None
            None (Some [str "DeFi"]) (date_ms feb_1).

(** A vectorizer holding one document. *)
Definition one_document : Vectorizer.TFIDFVectorizer :=
  Vectorizer.addDocument Vectorizer.create (str "a") (str "RWA token")
    (Vectorizer.mkMetadata None None [] no_date).

(** The search index built from the three documents. *)
Definition indexed : SemanticSearch.SemanticSearch :=
  match SemanticSearch.indexArticles SemanticSearch.create corpus with
  | Ok this => this
  | Throw _ => SemanticSearch.create
  end.

End Samples.

(* ================================================================== *)
(** * Vocabulary of the statements *)
(* ================================================================== *)

Module Order.
Import JS.

(** [a > 0] and [a >= b] as propositions. *)
Definition positive (a : number) : Prop := ngt a (Num 0%R) = true.

Definition at_least (a b : number) : Prop := nge a b = true.

(** Every element is at least as large as all that follow it. *)
Fixpoint descending (l : list number) : Prop :=
  match l with
  | [] => True
  | a :: rest => Forall (at_least a) rest /\ descending rest
  end.

End Order.

Module Swap.
Import JS Text.

(** The accumulators of cosineSimilarity with the two norms exchanged. *)
Definition swap_norms (s : sums) : sums :=
  mkSums (dotProduct s) (norm2 s) (norm1 s).

End Swap.

Module Bounds.
Import JS.

(** A real number between 0 and 1. *)
Definition unit_interval (a : number) : Prop :=
  exists r, a = Num r /\ (0 <= r <= 1)%R.

(** Every weight of the vector is a non-negative real. *)
Definition nonnegative (vec : obj number) : Prop :=
  forall k v, get vec k = Some v -> exists r, v = Num r /\ (0 <= r)%R.

(** The accumulators of cosineSimilarity are non-negative reals that obey
    the Cauchy-Schwarz inequality. *)
Definition balanced (s : Text.sums) : Prop :=
  exists d a b,
    s = Text.mkSums (Num d) (Num a) (Num b)
    /\ (0 <= d)%R /\ (0 <= a)%R /\ (0 <= b)%R /\ (d * d <= a * b)%R.

End Bounds.

Module Fitted.
Import JS SemanticSearch.

(** What [search] returns once the vectorizer is fitted. *)
Definition hits_of (this : SemanticSearch) (query : jsstring) (o : options)
  : list hit :=
  map (enhance this query (includeSnippets o))
      (filter (fun r => nge (Vectorizer.s_score r) (minScore o))
              (Vectorizer.rank (vectorizer this) query (topK o))).

(** The index can be searched: it is fitted, or holds a document to fit. *)
Definition ready (this : SemanticSearch) : Prop :=
  Vectorizer.fitted (vectorizer this) = true
  \/ Vectorizer.documents (vectorizer this) <> [].

End Fitted.

Module Shape.
Import JS Text.

(** What a token looks like: one CJK ideograph, a run of lower-case ASCII
    letters, or a run of digits. *)
Definition token_shape (t : jsstring) : bool :=
  match t with
  | [] => false
  | [c] => isChinese c || is_az c || is_digit c
  | _ => forallb is_az t || forallb is_digit t
  end.

(** The state of the scanner between two characters: the tokens found are
    well shaped and the token in progress is a run of letters or of digits,
    as [currentType] says. *)
Definition scanning (s : scanner) : Prop :=
  Forall (fun t => token_shape t = true) (tokens_so_far s)
  /\ (currentToken s = []
      \/ (currentType s = Some english
          /\ forallb is_az (currentToken s) = true)
      \/ (currentType s = Some numeric
          /\ forallb is_digit (currentToken s) = true)).

(** The test of [removeStopwords]. *)
Definition kept (token : jsstring) : bool :=
  if (js_length token =? 1) && first_is_chinese token
  then negb (has CHINESE_STOPWORDS token)
  else negb (has ENGLISH_STOPWORDS token) && (1 <? js_length token).

End Shape.

Module Census.
Import JS.


End Census.

Module MoreSamples.
Import JS Model.

(** The vectorizer of one document after one fit and after two. *)
Definition fitted_once : Vectorizer.TFIDFVectorizer :=
  match Vectorizer.fit Samples.one_document with
  | Ok v => v
  | Throw _ => Vectorizer.create
  end.

Definition fitted_twice : Vectorizer.TFIDFVectorizer :=
  match Vectorizer.fit fitted_once with
  | Ok v => v
  | Throw _ => Vectorizer.create
  end.

End MoreSamples.

Module Chronology.
Import JS Model.

(** The time value of a date that is not invalid. *)
Definition time_of (t : timestamp) : Z :=
  match date_or_epoch t with Some d => d | None => 0%Z end.

Definition dated (t : timestamp) : Prop := date_or_epoch t <> None.

End Chronology.

Module Tagging.
Import JS Model.



End Tagging.

Module Termination.
Import JS Model Discovery.

(** The work that the search of findClusters may still have to do: one
    step for every article of the graph that has not been visited, and one
    for each of its connections, which may yet enter the queue. *)
Definition pending (graph : obj (list connection)) (visited : list jsstring)
  : nat :=
  fold_right (fun e n =>
                if has visited (fst e) then n else 1 + length (snd e) + n)
             0 graph.

Definition potential (graph : obj (list connection)) (f : frontier) : nat :=
  length (queue f) + pending graph (visited f).

(** A node of a cluster stands for a stored article. *)
Definition stored (this : ConnectionDiscovery) (n : node) : Prop :=
  exists a, In a (articles this) /\ n = mkNode (id a) (title a).

Definition cluster_ok (this : ConnectionDiscovery) (c : list node) : Prop :=
  2 <= length c /\ Forall (stored this) c.

End Termination.

(* ================================================================== *)
(** * Properties *)
(* ================================================================== *)

Import JS Model.

(** Settles the comparisons of reals left by evaluation. *)
Ltac decide_reals :=
  repeat match goal with
  | |- context [Req_dec_T ?a ?b] => destruct (Req_dec_T a b); try lra
  | |- context [Rlt_dec ?a ?b] => destruct (Rlt_dec a b); try lra
  | |- context [Rle_dec ?a ?b] => destruct (Rle_dec a b); try lra
  end.

(** ** The base layer *)

(** *** Sets *)

Section SetFacts.

Lemma str_eqb_eq (a b : jsstring) : str_eqb a b = true <-> a = b.
Proof.
  unfold str_eqb. destruct (str_eq_dec a b); split; congruence.
Qed.

Lemma str_eqb_refl (a : jsstring) : str_eqb a a = true.
Proof. now apply str_eqb_eq. Qed.

Lemma has_In (s : list jsstring) (x : jsstring) : has s x = true <-> In x s.
Proof.
  unfold has. rewrite existsb_exists. split.
  - intros (y & Hy & E). apply str_eqb_eq in E. now subst.
  - intros H. exists x. split; [assumption | apply str_eqb_refl].
Qed.

Lemma set_add_In (s : list jsstring) (x y : jsstring) :
  In y (set_add s x) <-> In y s \/ y = x.
Proof.
  unfold set_add. destruct (has s x) eqn:E.
  - apply has_In in E. split; [tauto | intros [H | ->]; assumption].
  - rewrite in_app_iff. simpl. intuition congruence.
Qed.

Lemma set_add_NoDup (s : list jsstring) (x : jsstring) :
  NoDup s -> NoDup (set_add s x).
Proof.
  intros H. unfold set_add. destruct (has s x) eqn:E; [assumption |].
  apply NoDup_app; [assumption | repeat constructor; simpl; tauto |].
  intros y Hy [<- | []]. apply has_In in Hy. congruence.
Qed.

Lemma fold_set_add (items acc : list jsstring) :
  NoDup acc ->
  NoDup (fold_left set_add items acc)
  /\ forall y, In y (fold_left set_add items acc) <-> In y acc \/ In y items.
Proof.
  revert acc. induction items as [| x items IH]; intros acc Hacc; simpl.
  - split; [assumption | tauto].
  - destruct (IH (set_add acc x) (set_add_NoDup x Hacc)) as [Hn Hin].
    split; [assumption |].
    intros y. rewrite Hin, set_add_In. intuition congruence.
Qed.

Lemma mkSet_NoDup (items : list jsstring) : NoDup (mkSet items).
Proof. apply fold_set_add. constructor. Qed.

Lemma mkSet_In (items : list jsstring) (y : jsstring) :
  In y (mkSet items) <-> In y items.
Proof.
  unfold mkSet. destruct (@fold_set_add items [] (NoDup_nil _)) as [_ H].
  rewrite H. simpl. tauto.
Qed.

Lemma same_elements_Permutation (l1 l2 : list jsstring) :
  NoDup l1 -> NoDup l2 -> (forall x, In x l1 <-> In x l2) ->
  Permutation l1 l2.
Proof. intros. now apply NoDup_Permutation. Qed.

Lemma mkSet_length_ext (l1 l2 : list jsstring) :
  (forall x, In x l1 <-> In x l2) -> length (mkSet l1) = length (mkSet l2).
Proof.
  intros H. apply Permutation_length, same_elements_Permutation;
    try apply mkSet_NoDup.
  intros x. now rewrite !mkSet_In.
Qed.

End SetFacts.

(** *** Dictionaries *)

Section ObjectFacts.

Variable V : Type.

Lemma get_put_same (o : obj V) (k : jsstring) (v : V) :
  get (put o k v) k = Some v.
Proof.
  induction o as [| [k' v'] o IH]; simpl.
  - now rewrite str_eqb_refl.
  - destruct (str_eqb k k') eqn:E; simpl; rewrite E; [reflexivity | exact IH].
Qed.

Lemma get_put_other (o : obj V) (k k' : jsstring) (v : V) :
  k' <> k -> get (put o k v) k' = get o k'.
Proof.
  intros Hne. induction o as [| [k0 v0] o IH]; simpl.
  - destruct (str_eqb k' k) eqn:E; [apply str_eqb_eq in E; congruence |].
    reflexivity.
  - destruct (str_eqb k k0) eqn:E; simpl.
    + apply str_eqb_eq in E. subst k0.
      destruct (str_eqb k' k) eqn:E'; [apply str_eqb_eq in E'; congruence |].
      reflexivity.
    + now rewrite IH.
Qed.

(** Writing the value a property already has changes nothing. *)
Lemma put_present (o : obj V) (k : jsstring) (v : V) :
  get o k = Some v -> put o k v = o.
Proof.
  induction o as [| [k' v'] o IH]; simpl; [discriminate |].
  destruct (str_eqb k k') eqn:E.
  - now intros [= ->].
  - intros H. now rewrite IH.
Qed.

Lemma put_keys (o : obj V) (k : jsstring) (v : V) (x : jsstring) :
  In x (map fst (put o k v)) <-> In x (map fst o) \/ x = k.
Proof.
  induction o as [| [k' v'] o IH]; simpl.
  - intuition congruence.
  - destruct (str_eqb k k') eqn:E; simpl.
    + apply str_eqb_eq in E. subst. intuition congruence.
    + rewrite IH. tauto.
Qed.

Lemma put_NoDup (o : obj V) (k : jsstring) (v : V) :
  NoDup (map fst o) -> NoDup (map fst (put o k v)).
Proof.
  induction o as [| [k' v'] o IH]; simpl; intros H.
  - repeat constructor. simpl. tauto.
  - inversion H as [| ? ? Hn Hd]; subst.
    destruct (str_eqb k k') eqn:E; simpl.
    + now constructor.
    + constructor; [| now apply IH].
      rewrite put_keys. intros [Hin | ->]; [tauto |].
      rewrite str_eqb_refl in E. discriminate.
Qed.

Lemma insert_sorted_Permutation (W : Type) (after : W -> W -> bool) (x : W)
  (l : list W) :
  Permutation (insert_sorted after x l) (x :: l).
Proof.
  induction l as [| y ys IH]; simpl; [reflexivity |].
  destruct (after x y); [| reflexivity].
  rewrite IH. apply perm_swap.
Qed.

Lemma sort_Permutation (W : Type) (after : W -> W -> bool) (l : list W) :
  Permutation (sort after l) l.
Proof.
  induction l as [| x l IH]; simpl; [reflexivity |].
  rewrite insert_sorted_Permutation. now constructor.
Qed.

Lemma filter_split_Permutation (W : Type) (p : W -> bool) (l : list W) :
  Permutation (filter p l ++ filter (fun x => negb (p x)) l) l.
Proof.
  induction l as [| x l IH]; simpl; [reflexivity |].
  destruct (p x); simpl.
  - now constructor.
  - rewrite <- Permutation_middle. now constructor.
Qed.

Lemma entries_Permutation (o : obj V) : Permutation (entries o) o.
Proof.
  unfold entries. rewrite sort_Permutation. apply filter_split_Permutation.
Qed.

Lemma entries_NoDup (o : obj V) :
  NoDup (map fst o) -> NoDup (map fst (entries o)).
Proof.
  intros H. eapply Permutation_NoDup; [| exact H].
  apply Permutation_map, Permutation_sym, entries_Permutation.
Qed.

(** The loop [for ([k, v] of es) o[k] = w(k, v)]. *)
Variable W : Type.
Variable w : jsstring * W -> V.

Let store_all (es : list (jsstring * W)) (o : obj V) : obj V :=
  fold_left (fun o e => put o (fst e) (w e)) es o.

Lemma store_all_other (es : list (jsstring * W)) (o : obj V) (k : jsstring) :
  ~ In k (map fst es) -> get (store_all es o) k = get o k.
Proof.
  revert o. induction es as [| e es IH]; intros o Hk; simpl in *;
    [reflexivity |].
  rewrite IH by tauto. apply get_put_other. intros ->. tauto.
Qed.

Lemma store_all_get (es : list (jsstring * W)) (o : obj V) :
  NoDup (map fst es) ->
  forall e, In e es -> get (store_all es o) (fst e) = Some (w e).
Proof.
  revert o. induction es as [| e0 es IH]; intros o Hn e He; simpl in *;
    [tauto |].
  inversion Hn as [| ? ? Hnot Hd]; subst.
  destruct He as [-> | He].
  - rewrite store_all_other by assumption. apply get_put_same.
  - now apply IH.
Qed.

Lemma store_all_fixed (es : list (jsstring * W)) (o : obj V) :
  (forall e, In e es -> get o (fst e) = Some (w e)) -> store_all es o = o.
Proof.
  induction es as [| e es IH]; intros H; simpl; [reflexivity |].
  rewrite put_present by (apply H; now left).
  apply IH. intros e' He'. apply H. now right.
Qed.

Lemma store_all_idempotent (es : list (jsstring * W)) (o : obj V) :
  NoDup (map fst es) -> store_all es (store_all es o) = store_all es o.
Proof.
  intros Hn. apply store_all_fixed. intros e He. now apply store_all_get.
Qed.

End ObjectFacts.

(** *** Arithmetic of numbers *)

Section NumberFacts.

Ltac number_cases :=
  intros;
  repeat match goal with
  | n : number |- _ => destruct n as [? | [] | ]
  end;
  unfold nadd, nmul, Req_b, Rlt_b; simpl;
  decide_reals; try reflexivity; try (f_equal; lra).

Lemma nadd_comm (a b : number) : nadd a b = nadd b a.
Proof. number_cases. Qed.

Lemma nadd_assoc (a b c : number) : nadd (nadd a b) c = nadd a (nadd b c).
Proof. number_cases. Qed.

Lemma nmul_comm (a b : number) : nmul a b = nmul b a.
Proof. number_cases. Qed.

Lemma nadd_swap (a x y : number) : nadd (nadd a x) y = nadd (nadd a y) x.
Proof. now rewrite !nadd_assoc, (nadd_comm x y). Qed.

End NumberFacts.

(** *** Ordering of scores *)

Section OrderFacts.
Import Order.

Ltac by_cases :=
  unfold positive, at_least, ngt, nge, nsub, nadd, nneg, Rlt_b, Rle_b;
  intros;
  repeat match goal with
  | n : number |- _ => destruct n as [? | [] | ]
  end;
  simpl in *; try discriminate; try reflexivity;
  repeat match goal with
  | H : context [Rlt_dec ?a ?b] |- _ => destruct (Rlt_dec a b)
  | H : context [Rle_dec ?a ?b] |- _ => destruct (Rle_dec a b)
  | |- context [Rlt_dec ?a ?b] => destruct (Rlt_dec a b)
  | |- context [Rle_dec ?a ?b] => destruct (Rle_dec a b)
  end;
  try discriminate; try reflexivity; try lra.

Lemma at_least_trans (a b c : number) :
  at_least a b -> at_least b c -> at_least a c.
Proof. by_cases. Qed.

(** The comparator [b - a] is positive: b is at least a. *)
Lemma comparator_positive (a b : number) :
  positive a -> positive b ->
  ngt (nsub b a) (Num 0%R) = true -> at_least b a.
Proof. by_cases. Qed.

(** The comparator [b - a] is not positive: a is at least b. *)
Lemma comparator_not_positive (a b : number) :
  positive a -> positive b ->
  ngt (nsub b a) (Num 0%R) = false -> at_least a b.
Proof. by_cases. Qed.

Lemma ngt_irrefl (a : number) : ngt a a = false.
Proof. by_cases. Qed.

Lemma at_least_gt (a b c : number) :
  at_least a b -> ngt b c = true -> ngt a c = true.
Proof. by_cases. Qed.

Lemma descending_filter (p : number -> bool) (l : list number) :
  descending l -> descending (filter p l).
Proof.
  induction l as [| a l IH]; simpl; [tauto |].
  intros [Ha Hl]. destruct (p a); simpl; [| now apply IH].
  split; [| now apply IH].
  apply Forall_forall. intros b Hb. apply filter_In in Hb.
  rewrite Forall_forall in Ha. now apply Ha.
Qed.

Lemma In_firstn (B : Type) (k : nat) (l : list B) (b : B) :
  In b (firstn k l) -> In b l.
Proof.
  revert l. induction k as [| k IH]; intros [| a l]; simpl; try tauto.
  intros [H | H]; [now left | right; now apply IH].
Qed.

Lemma descending_firstn (k : nat) (l : list number) :
  descending l -> descending (firstn k l).
Proof.
  revert l. induction k as [| k IH]; intros [| a l]; simpl; try tauto.
  intros [Ha Hl]. split; [| now apply IH].
  apply Forall_forall. intros b Hb. apply In_firstn in Hb.
  rewrite Forall_forall in Ha. now apply Ha.
Qed.

End OrderFacts.

(** *** Array.prototype.sort with a descending comparator on a key *)

Section SortFacts.
Import Order.

Variable A : Type.
Variable key : A -> number.

Let after (x y : A) : bool := ngt (nsub (key y) (key x)) (Num 0%R).

Lemma insert_sorted_keys (x : A) (l : list A) (P : number -> Prop) :
  P (key x) -> Forall P (map key l) ->
  Forall P (map key (insert_sorted after x l)).
Proof.
  intros Hx. induction l as [| y ys IH]; simpl; intros H.
  - now constructor.
  - inversion H as [| ? ? Hy Hys]; subst.
    destruct (after x y); simpl.
    + constructor; [assumption | now apply IH].
    + now repeat constructor.
Qed.

Lemma insert_sorted_descending (x : A) (l : list A) :
  positive (key x) -> Forall positive (map key l) ->
  descending (map key l) ->
  descending (map key (insert_sorted after x l)).
Proof.
  intros Hx. induction l as [| y ys IH]; simpl; intros Hp Hd.
  - split; [constructor | exact I].
  - inversion Hp as [| ? ? Hy Hys]; subst. destruct Hd as [Hall Hd].
    destruct (after x y) eqn:E; simpl.
    + split; [| now apply IH].
      apply insert_sorted_keys; [| assumption].
      now apply comparator_positive.
    + assert (Hxy : at_least (key x) (key y))
        by now apply comparator_not_positive.
      split; [| now split].
      constructor; [assumption |].
      apply Forall_forall. intros b Hb. rewrite Forall_forall in Hall.
      apply at_least_trans with (key y); [assumption | now apply Hall].
Qed.

Lemma sort_keys (l : list A) (P : number -> Prop) :
  Forall P (map key l) -> Forall P (map key (sort after l)).
Proof.
  induction l as [| x l IH]; simpl; intros H; [constructor |].
  inversion H; subst. apply insert_sorted_keys; [assumption | now apply IH].
Qed.

Lemma sort_descending (l : list A) :
  Forall positive (map key l) -> descending (map key (sort after l)).
Proof.
  induction l as [| x l IH]; simpl; intros H; [exact I |].
  inversion H; subst.
  apply insert_sorted_descending; [assumption | now apply sort_keys |].
  now apply IH.
Qed.

End SortFacts.

(** *** Loops whose iterations commute *)

Section FoldFacts.

Variables A B : Type.
Variable f : A -> B -> A.
Hypothesis f_swap : forall a x y, f (f a x) y = f (f a y) x.

Lemma fold_left_Permutation (l1 l2 : list B) :
  Permutation l1 l2 -> forall a, fold_left f l1 a = fold_left f l2 a.
Proof.
  induction 1 as [| x l1 l2 _ IH | x y l | l1 l2 l3 _ IH1 _ IH2];
    intros a; simpl.
  - reflexivity.
  - apply IH.
  - now rewrite f_swap.
  - now rewrite IH1, IH2.
Qed.

End FoldFacts.

(** ** utils/text.js: jaccardSimilarity *)

(** C2.  jaccardSimilarity has no guard for an empty union: on two empty
    sets the quotient 0/0 is NaN, not 0. *)
Theorem jaccardSimilarity_empty_sets_NaN :
  Text.jaccardSimilarity [] [] = NaN
  /\ Text.jaccardSimilarity [] [] <> Num 0%R.
Proof.
  assert (E : Text.jaccardSimilarity [] [] = NaN).
  { vm_compute. decide_reals. reflexivity. }
  split; [exact E | rewrite E; discriminate].
Qed.

(** ** utils/text.js: symmetry of the similarity measures *)

Section SymmetryFacts.
Import Text Swap.

Lemma accumulate_swap (vec1 vec2 : obj number) (s : sums) (k1 k2 : jsstring) :
  accumulate vec1 vec2 (accumulate vec1 vec2 s k1) k2
  = accumulate vec1 vec2 (accumulate vec1 vec2 s k2) k1.
Proof.
  unfold accumulate. simpl. f_equal; apply nadd_swap.
Qed.

Lemma accumulate_flip (vec1 vec2 : obj number) (keys : list jsstring)
  (s : sums) :
  fold_left (accumulate vec2 vec1) keys (swap_norms s)
  = swap_norms (fold_left (accumulate vec1 vec2) keys s).
Proof.
  revert s. induction keys as [| k keys IH]; intros s; simpl;
    [reflexivity |].
  rewrite <- IH. f_equal. unfold accumulate, swap_norms. simpl.
  f_equal. f_equal. apply nmul_comm.
Qed.

Lemma key_sets_Permutation (l1 l2 : list jsstring) :
  Permutation (mkSet (l1 ++ l2)) (mkSet (l2 ++ l1)).
Proof.
  apply same_elements_Permutation; try apply mkSet_NoDup.
  intros x. rewrite !mkSet_In, !in_app_iff. tauto.
Qed.

Lemma cosine_sums_sym (vec1 vec2 : obj number) :
  fold_left (accumulate vec2 vec1) (mkSet (keys vec2 ++ keys vec1))
            (mkSums (Num 0%R) (Num 0%R) (Num 0%R))
  = swap_norms
      (fold_left (accumulate vec1 vec2) (mkSet (keys vec1 ++ keys vec2))
                 (mkSums (Num 0%R) (Num 0%R) (Num 0%R))).
Proof.
  rewrite (fold_left_Permutation (accumulate vec2 vec1)
             (accumulate_swap vec2 vec1)
             (key_sets_Permutation (keys vec2) (keys vec1))).
  apply (accumulate_flip vec1 vec2 _ (mkSums (Num 0%R) (Num 0%R) (Num 0%R))).
Qed.

Lemma cosineSimilarity_sym (vec1 vec2 : obj number) :
  cosineSimilarity vec1 vec2 = cosineSimilarity vec2 vec1.
Proof.
  unfold cosineSimilarity. rewrite (cosine_sums_sym vec1 vec2).
  set (s := fold_left (accumulate vec1 vec2) _ _).
  unfold swap_norms. simpl.
  rewrite (orb_comm (is_zero (norm2 s))).
  now rewrite (nmul_comm (Math_sqrt (norm2 s))).
Qed.

Lemma shared_Permutation (s1 s2 : list jsstring) :
  NoDup s1 -> NoDup s2 ->
  Permutation (filter (has s2) s1) (filter (has s1) s2).
Proof.
  intros H1 H2.
  apply same_elements_Permutation; try now apply NoDup_filter.
  intros x. rewrite !filter_In, !has_In. tauto.
Qed.

Lemma jaccardSimilarity_sym (set1 set2 : list jsstring) :
  jaccardSimilarity set1 set2 = jaccardSimilarity set2 set1.
Proof.
  unfold jaccardSimilarity. f_equal; f_equal.
  - apply mkSet_length_ext. intros x. rewrite !filter_In, !has_In. tauto.
  - apply mkSet_length_ext. intros x. rewrite !in_app_iff. tauto.
Qed.

End SymmetryFacts.

(** ** utils/text.js: bounds of the similarity measures *)

Section TextBounds.
Import Text Bounds.

Lemma as_vector_nonnegative (tf : obj nat) : nonnegative (as_vector tf).
Proof.
  intros k v. induction tf as [| [k' n] tf IH]; simpl; [discriminate |].
  destruct (str_eqb k k').
  - intros [= <-]. exists (INR n). split; [reflexivity | apply pos_INR].
  - exact IH.
Qed.

Lemma or_zero_nonnegative (vec : obj number) (k : jsstring) :
  nonnegative vec -> exists r, or_zero (get vec k) = Num r /\ (0 <= r)%R.
Proof.
  intros H. destruct (get vec k) as [v |] eqn:E.
  - destruct (H _ _ E) as (r & -> & Hr). now exists r.
  - exists 0%R. split; [reflexivity | lra].
Qed.

Lemma square_le (u v : R) : (0 <= u -> 0 <= v -> u * u <= v * v -> u <= v)%R.
Proof. intros Hu Hv H. nra. Qed.

Lemma cauchy_step (d a b x y : R) :
  (0 <= d -> 0 <= a -> 0 <= b -> 0 <= x -> 0 <= y -> d * d <= a * b ->
   (d + x * y) * (d + x * y) <= (a + x * x) * (b + y * y))%R.
Proof.
  intros Hd Ha Hb Hx Hy H.
  assert (K : (2 * d * (x * y) <= a * (y * y) + b * (x * x))%R).
  { apply square_le.
    - repeat apply Rmult_le_pos; lra.
    - apply Rplus_le_le_0_compat; repeat apply Rmult_le_pos; lra.
    - pose proof (Rle_0_sqr (a * (y * y) - b * (x * x))) as S.
      unfold Rsqr in S.
      assert (P : (0 <= x * x * (y * y) * (a * b - d * d))%R)
        by (repeat apply Rmult_le_pos; lra).
      assert (E : ((a * (y * y) + b * (x * x)) * (a * (y * y) + b * (x * x))
                   - 2 * d * (x * y) * (2 * d * (x * y))
                   = (a * (y * y) - b * (x * x)) * (a * (y * y) - b * (x * x))
                     + 4 * (x * x * (y * y) * (a * b - d * d)))%R) by ring.
      lra. }
  assert (E : ((a + x * x) * (b + y * y) - (d + x * y) * (d + x * y)
               = (a * b - d * d)
                 + (a * (y * y) + b * (x * x) - 2 * d * (x * y)))%R) by ring.
  lra.
Qed.

Lemma accumulate_balanced (vec1 vec2 : obj number) (s : sums) (k : jsstring) :
  nonnegative vec1 -> nonnegative vec2 -> balanced s ->
  balanced (accumulate vec1 vec2 s k).
Proof.
  intros H1 H2 (d & a & b & -> & Hd & Ha & Hb & H).
  destruct (or_zero_nonnegative k H1) as (x & Ex & Hx).
  destruct (or_zero_nonnegative k H2) as (y & Ey & Hy).
  unfold accumulate. rewrite Ex, Ey. simpl.
  exists (d + x * y)%R, (a + x * x)%R, (b + y * y)%R.
  split; [reflexivity |].
  repeat split; try nra. now apply cauchy_step.
Qed.

Lemma fold_balanced (vec1 vec2 : obj number) (ks : list jsstring) (s : sums) :
  nonnegative vec1 -> nonnegative vec2 -> balanced s ->
  balanced (fold_left (accumulate vec1 vec2) ks s).
Proof.
  intros H1 H2. revert s. induction ks as [| k ks IH]; intros s Hs; simpl;
    [assumption |].
  apply IH. now apply accumulate_balanced.
Qed.

Lemma cosineSimilarity_unit (vec1 vec2 : obj number) :
  nonnegative vec1 -> nonnegative vec2 ->
  unit_interval (cosineSimilarity vec1 vec2).
Proof.
  intros H1 H2. unfold cosineSimilarity.
  destruct (fold_balanced (mkSet (keys vec1 ++ keys vec2))
              H1 H2 (s := mkSums (Num 0%R) (Num 0%R) (Num 0%R)))
    as (d & a & b & -> & Hd & Ha & Hb & H).
  { exists 0%R, 0%R, 0%R. split; [reflexivity |]. repeat split; lra. }
  simpl. unfold Req_b, Rlt_b.
  destruct (Req_dec_T a 0); simpl; [exists 0%R; split; [reflexivity | lra] |].
  destruct (Req_dec_T b 0); simpl; [exists 0%R; split; [reflexivity | lra] |].
  destruct (Rlt_dec a 0); [lra |]. destruct (Rlt_dec b 0); [lra |].
  simpl. unfold Req_b.
  assert (Sa : (0 < sqrt a)%R) by (apply sqrt_lt_R0; lra).
  assert (Sb : (0 < sqrt b)%R) by (apply sqrt_lt_R0; lra).
  assert (Sab : (0 < sqrt a * sqrt b)%R) by nra.
  destruct (Req_dec_T (sqrt a * sqrt b) 0); [lra |].
  eexists. split; [reflexivity |].
  assert (Hle : (d <= sqrt a * sqrt b)%R).
  { rewrite <- sqrt_mult by lra. rewrite <- (sqrt_square d) by lra.
    apply sqrt_le_1; nra. }
  split.
  - apply Rmult_le_pos; [lra |]. left. now apply Rinv_0_lt_compat.
  - apply Rmult_le_reg_r with (sqrt a * sqrt b)%R; [assumption |].
    unfold Rdiv. rewrite Rmult_assoc, Rinv_l by lra. lra.
Qed.

Lemma ratio_unit (i u : nat) :
  i <= u -> u <> 0 -> unit_interval (ndiv (of_nat i) (of_nat u)).
Proof.
  intros Hle Hu. unfold ndiv, of_nat, Req_b.
  assert (Pu : (0 < INR u)%R) by (apply lt_0_INR; lia).
  assert (Pi : (0 <= INR i)%R) by apply pos_INR.
  assert (Piu : (INR i <= INR u)%R) by now apply le_INR.
  destruct (Req_dec_T (INR u) 0); [lra |].
  eexists. split; [reflexivity |]. split.
  - apply Rmult_le_pos; [lra |]. left. now apply Rinv_0_lt_compat.
  - apply Rmult_le_reg_r with (INR u); [assumption |].
    unfold Rdiv. rewrite Rmult_assoc, Rinv_l by lra. lra.
Qed.

Lemma jaccardSimilarity_unit (set1 set2 : list jsstring) :
  set1 ++ set2 <> [] -> unit_interval (jaccardSimilarity set1 set2).
Proof.
  intros Hne. unfold jaccardSimilarity. apply ratio_unit.
  - apply NoDup_incl_length; [apply mkSet_NoDup |].
    intros x Hx. rewrite mkSet_In, filter_In in Hx.
    rewrite mkSet_In, in_app_iff. tauto.
  - destruct (set1 ++ set2) as [| x l] eqn:E; [congruence |].
    assert (Hin : In x (mkSet (x :: l))) by (apply mkSet_In; now left).
    destruct (mkSet (x :: l)); [destruct Hin | discriminate].
Qed.

Lemma weighted_sum_unit (t c k : number) :
  unit_interval t -> unit_interval c -> unit_interval k ->
  unit_interval (nadd (nadd (nmul t (Num (4 / 10)%R))
                            (nmul c (Num (4 / 10)%R)))
                      (nmul k (Num (2 / 10)%R))).
Proof.
  intros (x & -> & Hx) (y & -> & Hy) (z & -> & Hz). simpl.
  eexists. split; [reflexivity | lra].
Qed.

End TextBounds.

(** ** embeddings/vectorizer.js: fit *)

Section FitFacts.
Import Vectorizer.

Lemma record_terms_documents (numDocs : nat) (es : list (jsstring * nat))
  (this : TFIDFVectorizer) :
  documents (fold_left (record_term numDocs) es this) = documents this.
Proof.
  revert this. induction es as [| e es IH]; intros this; simpl;
    [reflexivity | now rewrite IH].
Qed.

Lemma calculateIDF_documents (this : TFIDFVectorizer) :
  documents (calculateIDF this) = documents this.
Proof. apply record_terms_documents. Qed.

Lemma fit_nonempty (this : TFIDFVectorizer) :
  documents this <> [] ->
  exists this', fit this = Ok this'
                /\ fitted this' = true
                /\ documents this' = documents this.
Proof.
  intros H. unfold fit. destruct (documents this) eqn:E; [congruence |].
  eexists. split; [reflexivity |]. simpl.
  split; [reflexivity |]. now rewrite calculateIDF_documents.
Qed.

End FitFacts.

(** C7.  fit throws exactly when the vectorizer holds no document; with at
    least one document it returns a fitted model over the same documents. *)
Theorem fit_throws_iff_no_documents :
  forall this : Vectorizer.TFIDFVectorizer,
    (Vectorizer.fit this = Throw Vectorizer.no_documents
     <-> Vectorizer.documents this = [])
    /\ ((exists this', Vectorizer.fit this = Ok this'
                       /\ Vectorizer.fitted this' = true
                       /\ Vectorizer.documents this'
                          = Vectorizer.documents this)
        <-> Vectorizer.documents this <> []).
Proof.
  intros this. split; split.
  - intros H. unfold Vectorizer.fit in H.
    destruct (Vectorizer.documents this); [reflexivity | discriminate].
  - intros E. unfold Vectorizer.fit. now rewrite E.
  - intros (this' & H & _) E. unfold Vectorizer.fit in H.
    rewrite E in H. discriminate.
  - apply fit_nonempty.
Qed.

(** ** embeddings/vectorizer.js: fitting twice *)

Section RefitFacts.
Import Vectorizer.

Lemma record_terms_idf (numDocs : nat) (es : list (jsstring * nat))
  (this : TFIDFVectorizer) :
  idf (fold_left (record_term numDocs) es this)
  = fold_left (fun o e => put o (fst e) (idf_weight numDocs (snd e)))
              es (idf this).
Proof.
  revert this. induction es as [| e es IH]; intros this; simpl;
    [reflexivity | now rewrite IH].
Qed.

Lemma count_tokens_NoDup (tokens : list jsstring) (freq : obj nat) :
  NoDup (map fst freq) ->
  NoDup (map fst (fold_left Text.count_token tokens freq)).
Proof.
  revert freq. induction tokens as [| t tokens IH]; intros freq H; simpl;
    [assumption |].
  apply IH. now apply put_NoDup.
Qed.

Lemma documentFrequency_NoDup (docs : list document) :
  NoDup (map fst (documentFrequency docs)).
Proof.
  unfold documentFrequency.
  assert (G : forall freq, NoDup (map fst freq) ->
                NoDup (map fst (fold_left count_document docs freq))).
  { induction docs as [| d docs IH]; intros freq H; simpl; [assumption |].
    apply IH. now apply count_tokens_NoDup. }
  apply G. constructor.
Qed.

Lemma vectorize_idf (a b : TFIDFVectorizer) (termFreq : obj nat) :
  idf a = idf b -> vectorize a termFreq = vectorize b termFreq.
Proof. intros E. unfold vectorize. now rewrite E. Qed.

Lemma rank_idf_vectors (a b : TFIDFVectorizer) (query : jsstring) (k : nat) :
  idf a = idf b -> vectors a = vectors b -> rank a query k = rank b query k.
Proof.
  intros Ei Ev. unfold rank, transformQuery.
  now rewrite Ev, (vectorize_idf a b _ Ei).
Qed.

Lemma fit_Ok (this first : TFIDFVectorizer) :
  fit this = Ok first ->
  documents first = documents this
  /\ idf first = idf (calculateIDF this)
  /\ vectors first
     = map (fun doc => mkDocVector (d_id doc)
                         (vectorize (calculateIDF this) (d_termFreq doc))
                         (d_metadata doc))
           (documents this).
Proof.
  unfold fit. destruct (documents this) as [| d ds] eqn:Ed; [discriminate |].
  intros [= <-]. simpl. rewrite calculateIDF_documents, Ed. tauto.
Qed.

Lemma calculateIDF_idf_again (this first : TFIDFVectorizer) :
  documents first = documents this ->
  idf first = idf (calculateIDF this) ->
  idf (calculateIDF first) = idf first.
Proof.
  intros Ed Ei. rewrite Ei. unfold calculateIDF.
  rewrite !record_terms_idf, Ei, Ed. unfold calculateIDF.
  rewrite record_terms_idf.
  apply store_all_idempotent, entries_NoDup, documentFrequency_NoDup.
Qed.

(** The part of idempotence that holds: a second fit over the same
    documents recomputes the same IDF table, the same document vectors and
    therefore the same ranking for every query. *)
Lemma refit_keeps_idf_and_ranking (this first second : TFIDFVectorizer) :
  fit this = Ok first ->
  fit first = Ok second ->
  documents second = documents first
  /\ idf second = idf first
  /\ vectors second = vectors first
  /\ forall query k, rank second query k = rank first query k.
Proof.
  intros H1 H2.
  destruct (fit_Ok _ H1) as (Ed1 & Ei1 & Ev1).
  destruct (fit_Ok _ H2) as (Ed2 & Ei2 & Ev2).
  assert (Ei : idf second = idf first).
  { rewrite Ei2. now apply calculateIDF_idf_again with this. }
  assert (Ev : vectors second = vectors first).
  { rewrite Ev2, Ev1, Ed1. apply map_ext. intros doc.
    f_equal. apply vectorize_idf. now rewrite <- Ei2, Ei. }
  repeat split; try assumption.
  intros query k. now apply rank_idf_vectors.
Qed.

End RefitFacts.

(** ** embeddings/vectorizer.js: the vocabulary after a second fit *)

Section RenumberFacts.
Import Vectorizer.

Lemma keys_length (V : Type) (o : obj V) : length (keys o) = length o.
Proof.
  unfold keys. rewrite length_map.
  apply Permutation_length, entries_Permutation.
Qed.

Lemma record_terms_vocabulary (numDocs : nat) (es : list (jsstring * nat))
  (this : TFIDFVectorizer) :
  vocabulary (fold_left (record_term numDocs) es this)
  = fold_left (fun o e => put o (fst e) (length (keys o))) es
              (vocabulary this).
Proof.
  revert this. induction es as [| e es IH]; intros this; simpl;
    [reflexivity | now rewrite IH].
Qed.

Lemma numbering_other (es : list (jsstring * nat)) (o : obj nat)
  (k : jsstring) :
  ~ In k (map fst es) ->
  get (fold_left (fun o e => put o (fst e) (length (keys o))) es o) k
  = get o k.
Proof.
  revert o. induction es as [| e es IH]; intros o Hk; simpl in *;
    [reflexivity |].
  rewrite IH by tauto. apply get_put_other. intros ->. tauto.
Qed.

(** The index given to the first term of the loop. *)
Lemma numbering_first (e : jsstring * nat) (es : list (jsstring * nat))
  (o : obj nat) :
  NoDup (map fst (e :: es)) ->
  get (fold_left (fun o e => put o (fst e) (length (keys o))) (e :: es) o)
      (fst e)
  = Some (length o).
Proof.
  intros Hn. inversion Hn; subst. simpl.
  rewrite numbering_other by assumption.
  now rewrite get_put_same, keys_length.
Qed.

Lemma fit_vocabulary (this first : TFIDFVectorizer) :
  fit this = Ok first ->
  vocabulary first
  = fold_left (fun o e => put o (fst e) (length (keys o)))
              (entries (documentFrequency (documents this)))
              (vocabulary this).
Proof.
  unfold fit. destruct (documents this) as [| d ds] eqn:Ed; [discriminate |].
  intros [= <-]. simpl. unfold calculateIDF.
  now rewrite record_terms_vocabulary, Ed.
Qed.

(** Starting from the empty vocabulary of a new vectorizer, a second fit
    never reproduces the numbering of the first one, unless no document has
    any term. *)
Lemma refit_never_keeps_vocabulary (this first second : TFIDFVectorizer) :
  vocabulary this = [] ->
  fit this = Ok first ->
  fit first = Ok second ->
  vocabulary first <> [] ->
  vocabulary second <> vocabulary first.
Proof.
  intros E0 H1 H2 Hne.
  pose proof (fit_vocabulary _ H1) as V1.
  pose proof (fit_vocabulary _ H2) as V2.
  destruct (fit_Ok _ H1) as (Ed1 & _). rewrite Ed1 in V2.
  rewrite E0 in V1.
  assert (Hn : NoDup (map fst (entries (documentFrequency (documents this)))))
    by apply entries_NoDup, documentFrequency_NoDup.
  destruct (entries (documentFrequency (documents this))) as [| e es] eqn:Ee.
  - simpl in V1. congruence.
  - intros Eq.
    assert (G1 : get (vocabulary first) (fst e) = Some 0).
    { rewrite V1. now rewrite numbering_first. }
    assert (G2 : get (vocabulary second) (fst e)
                 = Some (length (vocabulary first))).
    { rewrite V2. now rewrite numbering_first. }
    rewrite Eq, G1 in G2. injection G2 as G2.
    destruct (vocabulary first); [congruence | discriminate].
Qed.

End RenumberFacts.

(** C1.  calculateIDF writes into the vocabulary left by the previous fit:
    on a second fit of the same single document every term is present
    already, so each of the three terms is given the index 3, while the
    first fit had numbered them 0, 1, 2. *)
Theorem refit_renumbers_vocabulary :
  exists first second,
    Vectorizer.fit Samples.one_document = Ok first
    /\ Vectorizer.fit first = Ok second
    /\ Vectorizer.documents second = Vectorizer.documents first
    /\ Vectorizer.vocabulary first
       = [(str "rwa", 0); (str "token", 1); (str "rwatoken", 2)]
    /\ Vectorizer.vocabulary second
       = [(str "rwa", 3); (str "token", 3); (str "rwatoken", 3)]
    /\ Vectorizer.vocabulary second <> Vectorizer.vocabulary first.
Proof.
  eexists. eexists.
  split; [reflexivity |]. split; [reflexivity |].
  split; [reflexivity |].
  split; [vm_compute; reflexivity |].
  split; [vm_compute; reflexivity |].
  vm_compute. discriminate.
Qed.

(** ** search/semantic.js *)

Section SearchFacts.
Import Order SemanticSearch Fitted.

Lemma rank_descending (v : Vectorizer.TFIDFVectorizer) (query : jsstring)
  (k : nat) :
  descending (map Vectorizer.s_score (Vectorizer.rank v query k)).
Proof.
  unfold Vectorizer.rank, take. rewrite <- firstn_map.
  apply descending_firstn.
  apply (sort_descending Vectorizer.s_score).
  apply Forall_forall. intros x Hx. apply in_map_iff in Hx.
  destruct Hx as (s & <- & Hs). apply filter_In in Hs. exact (proj2 Hs).
Qed.

Lemma search_fitted (this : SemanticSearch) (query : jsstring) (o : options) :
  Vectorizer.fitted (vectorizer this) = true ->
  search this query o = Ok (hits_of this query o, this).
Proof.
  intros Hfit. unfold search, Vectorizer.search, hits_of.
  rewrite Hfit. simpl. rewrite Hfit. simpl. now destruct this.
Qed.

Lemma hits_scores (this : SemanticSearch) (query : jsstring) (o : options) :
  map h_score (hits_of this query o)
  = filter (fun s => nge s (minScore o))
           (map Vectorizer.s_score
                (Vectorizer.rank (vectorizer this) query (topK o))).
Proof.
  unfold hits_of. rewrite map_map. simpl.
  induction (Vectorizer.rank (vectorizer this) query (topK o)) as [| r l IH];
    simpl; [reflexivity |].
  destruct (nge (Vectorizer.s_score r) (minScore o)); simpl; now rewrite IH.
Qed.

Lemma hits_descending (this : SemanticSearch) (query : jsstring)
  (o : options) :
  descending (map h_score (hits_of this query o)).
Proof.
  rewrite hits_scores. apply descending_filter, rank_descending.
Qed.

Lemma indexArticles_fitted (this this' : SemanticSearch)
  (arts : list Article) :
  indexArticles this arts = Ok this' ->
  Vectorizer.fitted (vectorizer this') = true.
Proof.
  unfold indexArticles, Vectorizer.fit.
  destruct (Vectorizer.documents _); [discriminate |].
  now intros [= <-].
Qed.

(** After indexArticles the index can be searched. *)
Lemma indexArticles_ready (this this' : SemanticSearch)
  (arts : list Article) :
  indexArticles this arts = Ok this' -> ready this'.
Proof. intros H. left. now apply indexArticles_fitted with this arts. Qed.

(** A search fits the vectorizer first when that is still to be done. *)
Lemma search_ready (this : SemanticSearch) (query : jsstring) (o : options) :
  ready this ->
  exists this',
    search this query o = Ok (hits_of this' query o, this')
    /\ articles this' = articles this
    /\ Vectorizer.fitted (vectorizer this') = true.
Proof.
  intros Hready.
  destruct (Vectorizer.fitted (vectorizer this)) eqn:Hfit.
  - exists this. now rewrite search_fitted.
  - destruct Hready as [Hr | Hdocs]; [congruence |].
    destruct (fit_nonempty _ Hdocs) as (v & Hv & Hf & _).
    exists (mkSearch v (articles this)).
    unfold search, Vectorizer.search, hits_of.
    rewrite Hfit. simpl. rewrite Hv, Hf. simpl. tauto.
Qed.

(** With nothing to fit, the lazy fit of a search throws. *)
Lemma search_unready_throws (this : SemanticSearch) (query : jsstring)
  (o : options) :
  ~ ready this -> search this query o = Throw Vectorizer.no_documents.
Proof.
  intros Hnot. unfold ready in Hnot. unfold search, Vectorizer.fit.
  destruct (Vectorizer.fitted (vectorizer this)); [tauto |].
  destruct (Vectorizer.documents (vectorizer this)) eqn:E; simpl.
  - reflexivity.
  - exfalso. apply Hnot. right. discriminate.
Qed.

(** An unknown id is answered before any search is made. *)
Lemma findSimilar_unknown_id (this : SemanticSearch) (articleId : jsstring)
  (topK : nat) :
  get (articles this) articleId = None ->
  findSimilar this articleId topK = Ok ([], this).
Proof. intros H. unfold findSimilar. now rewrite H. Qed.

End SearchFacts.

(** C5.  On an index that is fitted or has a document to fit,
    searchWithContext returns normally, and hasRelevantInfo is true exactly
    when the result list is not empty and its first entry, which no other
    entry outscores, has a score strictly above 0.15; that is the case
    exactly when some entry scores above 0.15, and a first score equal to
    0.15 gives false. *)
Theorem searchWithContext_relevance_gate
  (this : SemanticSearch.SemanticSearch) (question : jsstring) (topK : nat)
  (Hready : Fitted.ready this) :
  exists ctx this',
    SemanticSearch.searchWithContext this question topK = Ok (ctx, this')
    /\ (SemanticSearch.hasRelevantInfo ctx = true <->
        exists top rest,
          SemanticSearch.results ctx = top :: rest
          /\ Forall (fun r => Order.at_least (SemanticSearch.relevance top)
                                             (SemanticSearch.relevance r))
                    rest
          /\ ngt (SemanticSearch.relevance top) (Num (15 / 100)%R) = true)
    /\ (SemanticSearch.hasRelevantInfo ctx = true <->
        Exists (fun r => ngt (SemanticSearch.relevance r) (Num (15 / 100)%R)
                         = true)
               (SemanticSearch.results ctx))
    /\ (forall top rest,
          SemanticSearch.results ctx = top :: rest ->
          SemanticSearch.relevance top = Num (15 / 100)%R ->
          SemanticSearch.hasRelevantInfo ctx = false).
Proof.
  unfold SemanticSearch.searchWithContext.
  destruct (search_ready question
              (SemanticSearch.mkOptions topK SemanticSearch.default_minScore
                                        true) Hready)
    as (this' & Hsearch & _ & _).
  rewrite Hsearch.
  set (hits := Fitted.hits_of this' question _).
  assert (Hd : Order.descending (map SemanticSearch.h_score hits))
    by apply hits_descending.
  eexists. exists this'. split; [reflexivity |]. simpl.
  destruct hits as [| h hs]; simpl in *.
  - split; [| split].
    + split; [discriminate | intros (? & ? & [=] & _)].
    + split; [discriminate | intros H; inversion H].
    + intros ? ? [=].
  - destruct Hd as [Hmax _].
    assert (Hall : forall r,
               In r (map (fun r0 =>
                            SemanticSearch.mkContextEntry
                              (SemanticSearch.h_title r0)
                              (SemanticSearch.h_score r0)
                              (or_nil (SemanticSearch.h_snippets r0))
                              (SemanticSearch.h_summary r0)
                              (SemanticSearch.h_keyPoints r0)
                              (SemanticSearch.h_url r0)) hs) ->
               Order.at_least (SemanticSearch.h_score h)
                              (SemanticSearch.relevance r)).
    { intros r Hr. apply in_map_iff in Hr. destruct Hr as (x & <- & Hx).
      simpl. rewrite Forall_forall in Hmax. apply Hmax. now apply in_map. }
    split; [| split].
    + split.
      * intros Hrel. eexists. eexists. split; [reflexivity |]. simpl.
        split; [| exact Hrel]. now apply Forall_forall.
      * intros (top & rest & [= <- <-] & _ & Hgt). exact Hgt.
    + split.
      * intros Hrel. apply Exists_cons_hd. exact Hrel.
      * intros Hex. apply Exists_cons in Hex. destruct Hex as [Hgt | Hex].
        -- exact Hgt.
        -- apply Exists_exists in Hex. destruct Hex as (r & Hr & Hgt).
           unfold SemanticSearch.relevant, SemanticSearch.gate. simpl.
           apply at_least_gt with (SemanticSearch.relevance r);
             [now apply Hall | exact Hgt].
    + intros top rest [= <- <-]. simpl. intros E.
      unfold SemanticSearch.relevant, SemanticSearch.gate. simpl.
      rewrite E. apply ngt_irrefl.
Qed.

Lemma searchWithContext_relevance_gate_witness :
  Fitted.ready Samples.indexed
  /\ exists ctx this',
       SemanticSearch.searchWithContext Samples.indexed (str "RWA") 3
       = Ok (ctx, this')
       /\ (SemanticSearch.hasRelevantInfo ctx = true <->
           exists top rest,
             SemanticSearch.results ctx = top :: rest
             /\ Forall (fun r =>
                          Order.at_least (SemanticSearch.relevance top)
                                         (SemanticSearch.relevance r))
                       rest
             /\ ngt (SemanticSearch.relevance top) (Num (15 / 100)%R) = true)
       /\ (SemanticSearch.hasRelevantInfo ctx = true <->
           Exists (fun r =>
                     ngt (SemanticSearch.relevance r) (Num (15 / 100)%R)
                     = true)
                  (SemanticSearch.results ctx))
       /\ (forall top rest,
             SemanticSearch.results ctx = top :: rest ->
             SemanticSearch.relevance top = Num (15 / 100)%R ->
             SemanticSearch.hasRelevantInfo ctx = false).
Proof.
  assert (Hready : Fitted.ready Samples.indexed) by (left; reflexivity).
  split; [exact Hready |].
  exact (@searchWithContext_relevance_gate Samples.indexed (str "RWA") 3
                                          Hready).
Defined.

(** C10.  On an index that is fitted or has a document to fit, findSimilar
    returns normally; the returned list never contains the article asked
    about, and it is empty when the store has no article of that id. *)
Theorem findSimilar_excludes_source
  (this : SemanticSearch.SemanticSearch) (articleId : jsstring) (topK : nat)
  (Hready : Fitted.ready this) :
  exists hits this',
    SemanticSearch.findSimilar this articleId topK = Ok (hits, this')
    /\ ~ In articleId (map SemanticSearch.h_id hits)
    /\ (get (SemanticSearch.articles this) articleId = None -> hits = []).
Proof.
  unfold SemanticSearch.findSimilar.
  destruct (get (SemanticSearch.articles this) articleId) as [article |].
  - match goal with
    | |- context [SemanticSearch.search this ?q ?o] =>
        destruct (search_ready q o Hready) as (this' & Hsearch & _ & _)
    end.
    rewrite Hsearch.
    eexists. exists this'. split; [reflexivity |]. split; [| discriminate].
    intros Hin. apply in_map_iff in Hin. destruct Hin as (h & Hid & Hh).
    apply In_firstn, filter_In in Hh. destruct Hh as [_ Hne].
    rewrite Hid, str_eqb_refl in Hne. discriminate.
  - exists [], this. repeat split. intros [].
Qed.

Lemma findSimilar_excludes_source_witness :
  Fitted.ready Samples.indexed
  /\ get (SemanticSearch.articles Samples.indexed) (str "z") = None
  /\ (exists hits this',
        SemanticSearch.findSimilar Samples.indexed (str "z") 5
        = Ok (hits, this')
        /\ ~ In (str "z") (map SemanticSearch.h_id hits)
        /\ (get (SemanticSearch.articles Samples.indexed) (str "z") = None ->
            hits = []))
  /\ (exists hits this',
        SemanticSearch.findSimilar Samples.indexed (str "a") 5
        = Ok (hits, this')
        /\ ~ In (str "a") (map SemanticSearch.h_id hits)
        /\ (get (SemanticSearch.articles Samples.indexed) (str "a") = None ->
            hits = [])).
Proof.
  assert (Hready : Fitted.ready Samples.indexed) by (left; reflexivity).
  split; [exact Hready |]. split; [reflexivity |].
  split.
  - exact (@findSimilar_excludes_source Samples.indexed (str "z") 5 Hready).
  - exact (@findSimilar_excludes_source Samples.indexed (str "a") 5 Hready).
Defined.

(** ** analysis/trends.js *)

Section TrendFacts.
Import Trends.

(** What the if-else chain makes of a timeline of one article. *)
Lemma classify_single (recent older : nat) :
  recent + older <= 1 ->
  classify recent older 1
  = match recent, older with
    | 1, 0 => rising
    | 0, 1 => declining
    | _, _ => new
    end.
Proof.
  intros H.
  destruct recent as [| [| recent]]; destruct older as [| [| older]];
    try lia; reflexivity.
Qed.


Lemma write_fresh (h : store) (v w : list Article) :
  write (h ++ [v]) (length h) w = h ++ [w].
Proof. induction h as [| a h IH]; simpl; [reflexivity | now rewrite IH]. Qed.


Lemma read_write (h : store) (r : ref) (v : list Article) :
  r < length h -> read (write h r v) r = v.
Proof.
  revert r. induction h as [| a h IH]; intros [| r] H; simpl in *;
    try lia; [reflexivity |].
  unfold read in *. simpl. apply IH. lia.
Qed.


(** The trend of a tag whose timeline is a single article: new only when
    the article is not of the last sixty days. *)
Lemma analyzeTrend_single_article (this : TrendAnalyzer)
  (tag : option jsstring) (now : Z) (h h1 : store) (e : timelineEntry) :
  buildTimeline this tag h = ([e], h1) ->
  trend (fst (analyzeTrend this tag now h))
  = if after_ms (date e) (now - 30 * day)
    then rising
    else if after_ms (date e) (now - 60 * day)
            && not_after_ms (date e) (now - 30 * day)
         then declining
         else new.
Proof.
  intros H. unfold analyzeTrend. rewrite H. cbv zeta.
  cbn [fst trend filter].
  unfold after_ms, not_after_ms.
  destruct (date_of (date e)) as [d |]; [| reflexivity].
  destruct (Z.ltb_spec (now - 30 * day) d);
    destruct (Z.ltb_spec (now - 60 * day) d);
    destruct (Z.leb_spec d (now - 30 * day));
    try lia; reflexivity.
Qed.

End TrendFacts.

(** C4.  A tag whose whole history is one article saved a day ago: the
    test for rising comes first in the chain and holds (1 > 0 * 1.5), so
    the trend is rising and the branch for a single article is not
    reached. *)
Theorem analyzeTrend_single_recent_article_is_rising :
  let report :=
    fst (Trends.analyzeTrend (Trends.mkAnalyzer 0) (Some (str "RWA"))
                             (Samples.jan_1 + Trends.day)
                             [[Samples.january]]) in
  Trends.articleCount report = 1
  /\ Trends.recentCount report = 1
  /\ Trends.olderCount report = 0
  /\ Trends.trend report = Trends.rising
  /\ Trends.trend report <> Trends.new.
Proof.
  repeat split; try (vm_compute; reflexivity).
  vm_compute. discriminate.
Qed.

(** C9.  Without a tag, buildTimeline sorts the analyzer's own array in
    place: the stored articles February, January are January, February
    after the call. *)
Theorem buildTimeline_without_tag_sorts_stored_array :
  let this := Trends.mkAnalyzer 0 in
  let before := [[Samples.february; Samples.january]] in
  let after := snd (Trends.buildTimeline this None before) in
  Trends.read before (Trends.articles this)
  = [Samples.february; Samples.january]
  /\ Trends.read after (Trends.articles this)
     = [Samples.january; Samples.february]
  /\ Trends.read after (Trends.articles this)
     <> Trends.read before (Trends.articles this).
Proof.
  repeat split; try (vm_compute; reflexivity).
  vm_compute. discriminate.
Qed.

(** ** analysis/connections.js: calculateRelation *)

Section RelationFacts.
Import Connections.

Lemma sharedTags_unfold (a b : Article) :
  sharedTags (calculateRelation a b)
  = filter (has (mkSet (or_nil (tags b)))) (mkSet (or_nil (tags a))).
Proof. reflexivity. Qed.

Lemma tagOverlap_unfold (a b : Article) :
  tagOverlap (calculateRelation a b)
  = ndiv (of_nat (length (sharedTags (calculateRelation a b))))
         (of_nat (Nat.max (Nat.max (length (mkSet (or_nil (tags a))))
                                   (length (mkSet (or_nil (tags b)))))
                          1)).
Proof. reflexivity. Qed.

Lemma topicSimilarity_unfold (a b : Article) :
  topicSimilarity (calculateRelation a b)
  = Text.cosineSimilarity
      (Text.as_vector
         (Text.termFrequency (Text.tokens (Text.preprocess (topicText a)))))
      (Text.as_vector
         (Text.termFrequency (Text.tokens (Text.preprocess (topicText b))))).
Proof. reflexivity. Qed.

Lemma keyPointSimilarity_unfold (a b : Article) :
  keyPointSimilarity (calculateRelation a b)
  = if truthy_str (keyPointText a) && truthy_str (keyPointText b)
    then Text.jaccardSimilarity (token_set (keyPointText a))
                                (token_set (keyPointText b))
    else Num 0%R.
Proof. reflexivity. Qed.

Lemma totalScore_unfold (a b : Article) :
  totalScore (calculateRelation a b)
  = nadd (nadd (nmul (tagOverlap (calculateRelation a b)) (Num (4 / 10)%R))
               (nmul (topicSimilarity (calculateRelation a b))
                     (Num (4 / 10)%R)))
         (nmul (keyPointSimilarity (calculateRelation a b))
               (Num (2 / 10)%R)).
Proof. reflexivity. Qed.

Lemma sharedTags_Permutation (a b : Article) :
  Permutation (sharedTags (calculateRelation a b))
              (sharedTags (calculateRelation b a)).
Proof.
  rewrite !sharedTags_unfold. apply shared_Permutation; apply mkSet_NoDup.
Qed.

Lemma tagOverlap_sym (a b : Article) :
  tagOverlap (calculateRelation a b) = tagOverlap (calculateRelation b a).
Proof.
  rewrite !tagOverlap_unfold.
  rewrite (Permutation_length (sharedTags_Permutation a b)).
  now rewrite (Nat.max_comm (length (mkSet (or_nil (tags a))))).
Qed.

Lemma topicSimilarity_sym (a b : Article) :
  topicSimilarity (calculateRelation a b)
  = topicSimilarity (calculateRelation b a).
Proof. rewrite !topicSimilarity_unfold. apply cosineSimilarity_sym. Qed.

Lemma keyPointSimilarity_sym (a b : Article) :
  keyPointSimilarity (calculateRelation a b)
  = keyPointSimilarity (calculateRelation b a).
Proof.
  rewrite !keyPointSimilarity_unfold.
  rewrite (andb_comm (truthy_str (keyPointText a))).
  now rewrite (jaccardSimilarity_sym (token_set (keyPointText a))).
Qed.

End RelationFacts.

(** C6, as the code has it.  Exchanging the two articles leaves totalScore
    unchanged and yields the same shared tags, listed in the order of the
    first argument's tags: the two lists are permutations of each other. *)
Theorem calculateRelation_symmetric_up_to_tag_order :
  forall a b : Article,
    Connections.totalScore (Connections.calculateRelation a b)
    = Connections.totalScore (Connections.calculateRelation b a)
    /\ Permutation
         (Connections.sharedTags (Connections.calculateRelation a b))
         (Connections.sharedTags (Connections.calculateRelation b a)).
Proof.
  intros a b. split; [| apply sharedTags_Permutation].
  rewrite !totalScore_unfold.
  now rewrite tagOverlap_sym, topicSimilarity_sym, keyPointSimilarity_sym.
Qed.

(** C6, as stated, fails: with the tags x, y on one article and y, x on the
    other, sharedTags is x, y in one direction and y, x in the other. *)
Lemma sharedTags_follow_first_argument :
  Connections.sharedTags
    (Connections.calculateRelation Samples.tagged_xy Samples.tagged_yx)
  = [str "x"; str "y"]
  /\ Connections.sharedTags
       (Connections.calculateRelation Samples.tagged_yx Samples.tagged_xy)
     = [str "y"; str "x"]
  /\ ~ (Connections.sharedTags
          (Connections.calculateRelation Samples.tagged_xy Samples.tagged_yx)
        = Connections.sharedTags
            (Connections.calculateRelation Samples.tagged_yx
                                           Samples.tagged_xy)).
Proof.
  rewrite !sharedTags_unfold.
  repeat split; try (vm_compute; reflexivity).
  vm_compute. discriminate.
Qed.

(** ** analysis/connections.js: bounds of calculateRelation *)

Section RelationBounds.
Import Bounds Connections.


Lemma tagOverlap_unit (a b : Article) :
  unit_interval (tagOverlap (calculateRelation a b)).
Proof.
  rewrite tagOverlap_unfold, sharedTags_unfold. apply ratio_unit; [| lia].
  pose proof (filter_length_le (has (mkSet (or_nil (tags b))))
                               (mkSet (or_nil (tags a)))).
  lia.
Qed.

Lemma topicSimilarity_unit (a b : Article) :
  unit_interval (topicSimilarity (calculateRelation a b)).
Proof.
  rewrite topicSimilarity_unfold.
  apply cosineSimilarity_unit; apply as_vector_nonnegative.
Qed.

(** The bounds that hold: as long as the two key-point
    token sets are not both empty when both articles have key points, the
    three components and the total score are real numbers in [0, 1]. *)
Lemma calculateRelation_bounds (a b : Article) :
  (truthy_str (keyPointText a) && truthy_str (keyPointText b) = true ->
   token_set (keyPointText a) ++ token_set (keyPointText b) <> []) ->
  unit_interval (tagOverlap (calculateRelation a b))
  /\ unit_interval (topicSimilarity (calculateRelation a b))
  /\ unit_interval (keyPointSimilarity (calculateRelation a b))
  /\ unit_interval (totalScore (calculateRelation a b)).
Proof.
  intros Hkp.
  assert (K : unit_interval (keyPointSimilarity (calculateRelation a b))).
  { rewrite keyPointSimilarity_unfold.
    destruct (truthy_str (keyPointText a) && truthy_str (keyPointText b)).
    - now apply jaccardSimilarity_unit, Hkp.
    - exists 0%R. split; [reflexivity | lra]. }
  repeat split; try assumption;
    try apply tagOverlap_unit; try apply topicSimilarity_unit.
  rewrite totalScore_unfold.
  apply weighted_sum_unit;
    [apply tagOverlap_unit | apply topicSimilarity_unit | exact K].
Qed.

End RelationBounds.

(** C3.  Two articles whose key points are non-empty strings made of stop
    words only: both key-point token sets are empty, jaccardSimilarity
    yields NaN and so does totalScore, which is not a number between 0
    and 1. *)
Theorem calculateRelation_stopword_keypoints_NaN :
  let r := Connections.calculateRelation Samples.slogan Samples.retort in
  Connections.keyPointSimilarity r = NaN
  /\ Connections.totalScore r = NaN
  /\ nge (Connections.totalScore r) (Num 0%R) = false
  /\ nge (Num 1%R) (Connections.totalScore r) = false.
Proof.
  assert (K : Connections.keyPointSimilarity
                (Connections.calculateRelation Samples.slogan Samples.retort)
              = NaN).
  { vm_compute. decide_reals. reflexivity. }
  assert (T : Connections.totalScore
                (Connections.calculateRelation Samples.slogan Samples.retort)
              = NaN).
  { vm_compute. decide_reals; reflexivity. }
  cbv zeta. rewrite K, T. repeat split.
Qed.

(** ** QAEngine: analyzeQuestion *)

Section QuestionFacts.
Import QA.

Lemma first_type_Some (groups : list (questionType * list regex))
  (q : jsstring) (t : questionType) :
  first_type groups q = Some t <->
  exists earlier rs later,
    groups = earlier ++ (t, rs) :: later
    /\ any_matches rs q = true
    /\ forall g, In g earlier -> any_matches (snd g) q = false.
Proof.
  induction groups as [| [t0 rs0] groups IH]; simpl.
  - split; [discriminate |].
    intros (earlier & rs & later & E & _). now destruct earlier.
  - destruct (any_matches rs0 q) eqn:M.
    + split.
      * intros [= <-]. exists [], rs0, groups. simpl. tauto.
      * intros (earlier & rs & later & E & Hm & Hno).
        destruct earlier as [| g earlier]; simpl in E.
        -- now injection E as <- _ _.
        -- injection E as <- _. specialize (Hno (t0, rs0) (or_introl eq_refl)).
           simpl in Hno. congruence.
    + rewrite IH. split.
      * intros (earlier & rs & later & -> & Hm & Hno).
        exists ((t0, rs0) :: earlier), rs, later. split; [reflexivity |].
        split; [assumption |]. intros g [<- | Hg]; [exact M | now apply Hno].
      * intros (earlier & rs & later & E & Hm & Hno).
        destruct earlier as [| g earlier]; simpl in E.
        -- injection E as _ <- _. congruence.
        -- injection E as _ ->. exists earlier, rs, later.
           split; [reflexivity |]. split; [assumption |].
           intros g' Hg'. apply Hno. now right.
Qed.

Lemma first_type_None (groups : list (questionType * list regex))
  (q : jsstring) :
  first_type groups q = None <->
  forall g, In g groups -> any_matches (snd g) q = false.
Proof.
  induction groups as [| [t0 rs0] groups IH]; simpl.
  - split; [intros _ g [] | reflexivity].
  - destruct (any_matches rs0 q) eqn:M.
    + split; [discriminate |]. intros H.
      specialize (H (t0, rs0) (or_introl eq_refl)). simpl in H. congruence.
    + rewrite IH. split.
      * intros H g [<- | Hg]; [exact M | now apply H].
      * intros H g Hg. apply H. now right.
Qed.

Lemma general_not_declared (rs : list regex) : ~ In (general, rs) patterns.
Proof.
  unfold patterns. simpl. intuition discriminate.
Qed.

End QuestionFacts.

(** C8.  analyzeQuestion returns the type of the first group, in the
    declared order definition, comparison, listing, reason, summary, trend,
    opinion, one of whose patterns matches the lower-cased question, and
    general when no group matches; the three questions of the scenario are
    classified as definition, listing and reason. *)
Theorem analyzeQuestion_ordered_first_match :
  map fst QA.patterns
  = [QA.definition; QA.comparison; QA.listing; QA.reason; QA.summary;
     QA.trend; QA.opinion]
  /\ (forall question t,
        QA.analyzeQuestion question = t <->
        (exists earlier rs later,
            QA.patterns = earlier ++ (t, rs) :: later
            /\ QA.any_matches rs (toLowerCase question) = true
            /\ forall g, In g earlier ->
                         QA.any_matches (snd g) (toLowerCase question) = false)
        \/ (t = QA.general
            /\ forall g, In g QA.patterns ->
                         QA.any_matches (snd g) (toLowerCase question) = false))
  /\ QA.analyzeQuestion (str "什麼是 RWA？") = QA.definition
  /\ QA.analyzeQuestion (str "有哪些穩定幣？") = QA.listing
  /\ QA.analyzeQuestion (str "為什麼代幣化重要？") = QA.reason.
Proof.
  split; [reflexivity |].
  split; [| repeat split; vm_compute; reflexivity].
  intros question t. unfold QA.analyzeQuestion.
  destruct (QA.first_type QA.patterns (toLowerCase question)) as [t' |] eqn:F.
  - split.
    + intros <-. left. now apply first_type_Some.
    + intros [H | [-> H]].
      * apply first_type_Some in H. congruence.
      * apply first_type_None in H. congruence.
  - split.
    + intros <-. right. split; [reflexivity | now apply first_type_None].
    + intros [H | [-> _]]; [| reflexivity].
      apply first_type_Some in H. congruence.
Qed.

(* ================================================================== *)
(** * Further properties *)
(* ================================================================== *)

(** ** Sorting in general *)

Section SortedFacts.

Variable A : Type.
Variable after : A -> A -> bool.
Variable R : A -> A -> Prop.
Hypothesis R_trans : forall x y z, R x y -> R y z -> R x z.
Hypothesis after_true : forall x y, after x y = true -> R y x.
Hypothesis after_false : forall x y, after x y = false -> R x y.

Lemma insert_sorted_Forall (P : A -> Prop) (x : A) (l : list A) :
  P x -> Forall P l -> Forall P (insert_sorted after x l).
Proof.
  intros Hx H. induction H as [| y ys Hy Hys IH]; simpl.
  - now constructor.
  - destruct (after x y); repeat constructor; assumption.
Qed.

Lemma insert_sorted_StronglySorted (x : A) (l : list A) :
  StronglySorted R l -> StronglySorted R (insert_sorted after x l).
Proof.
  induction 1 as [| y ys Hs IH Hall]; simpl.
  - repeat constructor.
  - destruct (after x y) eqn:E.
    + constructor; [exact IH |].
      apply insert_sorted_Forall; [now apply after_true | assumption].
    + constructor; [now constructor |].
      constructor; [now apply after_false |].
      apply Forall_forall. intros z Hz. rewrite Forall_forall in Hall.
      apply R_trans with y; [now apply after_false | now apply Hall].
Qed.

Lemma sort_StronglySorted (l : list A) : StronglySorted R (sort after l).
Proof.
  induction l as [| x l IH]; simpl; [constructor |].
  now apply insert_sorted_StronglySorted.
Qed.

End SortedFacts.

Section SortedMore.

Variable A : Type.
Variable R : A -> A -> Prop.


Lemma StronglySorted_map (B : Type) (f : B -> A) (l : list B) :
  StronglySorted (fun x y => R (f x) (f y)) l -> StronglySorted R (map f l).
Proof.
  induction 1 as [| x l Hs IH Hall]; simpl; constructor; [assumption |].
  apply Forall_forall. intros y Hy. apply in_map_iff in Hy.
  destruct Hy as (z & <- & Hz). rewrite Forall_forall in Hall.
  now apply Hall.
Qed.

Lemma sort_In (after : A -> A -> bool) (l : list A) (x : A) :
  In x (sort after l) <-> In x l.
Proof.
  split; apply Permutation_in;
    [apply sort_Permutation | apply Permutation_sym, sort_Permutation].
Qed.

Lemma sort_length (after : A -> A -> bool) (l : list A) :
  length (sort after l) = length l.
Proof. apply Permutation_length, sort_Permutation. Qed.

End SortedMore.

(** ** utils/text.js: the tokenizer *)

Section TokenFacts.
Import Text Shape.

Lemma token_shape_letters (t : jsstring) :
  t <> [] -> forallb is_az t = true -> token_shape t = true.
Proof.
  intros Hne H. destruct t as [| c [| d t]]; [congruence | |].
  - simpl in *. rewrite andb_true_r in H. rewrite H.
    now destruct (isChinese c).
  - unfold token_shape. now rewrite H.
Qed.

Lemma token_shape_digits (t : jsstring) :
  t <> [] -> forallb is_digit t = true -> token_shape t = true.
Proof.
  intros Hne H. destruct t as [| c [| d t]]; [congruence | |].
  - simpl in *. rewrite andb_true_r in H. rewrite H. apply orb_true_r.
  - unfold token_shape. rewrite H. apply orb_true_r.
Qed.

(** A token in progress that gets pushed is well shaped. *)
Lemma pending_shape (s : scanner) :
  scanning s -> truthy_str (currentToken s) = true ->
  token_shape (currentToken s) = true.
Proof.
  intros [_ [E | [[_ H] | [_ H]]]] Ht.
  - rewrite E in Ht. discriminate.
  - apply token_shape_letters; [| exact H].
    intros E. rewrite E in Ht. discriminate.
  - apply token_shape_digits; [| exact H].
    intros E. rewrite E in Ht. discriminate.
Qed.

Lemma Forall_snoc (B : Type) (P : B -> Prop) (l : list B) (x : B) :
  Forall P l -> P x -> Forall P (l ++ [x]).
Proof. intros Hl Hx. apply Forall_app. split; [assumption | now constructor]. Qed.

Lemma scan_scanning (s : scanner) (char : N) :
  scanning s -> scanning (scan s char).
Proof.
  intros Hs. pose proof (pending_shape Hs) as Hp.
  destruct Hs as [Htoks Hcur]. unfold scan.
  destruct (isChinese char) eqn:Ec.
  - split; simpl; [| now left].
    apply Forall_snoc; [| simpl; now rewrite Ec].
    destruct (truthy_str (currentToken s)) eqn:Et; simpl; [| assumption].
    destruct (negb (type_is (currentType s) chinese)); [| assumption].
    apply Forall_snoc; [assumption | now apply Hp].
  - destruct (is_az char) eqn:Ea.
    + destruct (truthy_str (currentToken s)) eqn:Et.
      * destruct (type_is (currentType s) english) eqn:Ty; simpl.
        -- split; simpl; [assumption |]. right. left.
           split; [reflexivity |].
           rewrite forallb_app. simpl. rewrite Ea.
           destruct Hcur as [E | [[_ H] | [Hn _]]].
           ++ rewrite E in Et. discriminate.
           ++ now rewrite H.
           ++ rewrite Hn in Ty. discriminate.
        -- split; simpl.
           ++ apply Forall_snoc; [assumption | now apply Hp].
           ++ right. left. now rewrite Ea.
      * rewrite andb_false_r. split; simpl; [assumption |].
        right. left. split; [reflexivity |].
        destruct (currentToken s); [| discriminate]. simpl. now rewrite Ea.
    + destruct (is_digit char) eqn:Ed.
      * destruct (truthy_str (currentToken s)) eqn:Et.
        -- destruct (type_is (currentType s) numeric) eqn:Ty; simpl.
           ++ split; simpl; [assumption |]. right. right.
              split; [reflexivity |].
              rewrite forallb_app. simpl. rewrite Ed.
              destruct Hcur as [E | [[Hn _] | [_ H]]].
              ** rewrite E in Et. discriminate.
              ** rewrite Hn in Ty. discriminate.
              ** now rewrite H.
           ++ split; simpl.
              ** apply Forall_snoc; [assumption | now apply Hp].
              ** right. right. now rewrite Ed.
        -- rewrite andb_false_r. split; simpl; [assumption |].
           right. right. split; [reflexivity |].
           destruct (currentToken s); [| discriminate]. simpl. now rewrite Ed.
      * destruct (truthy_str (currentToken s)) eqn:Et; split; simpl;
          try assumption; try (now left).
        -- apply Forall_snoc; [assumption | now apply Hp].
        -- left. destruct (currentToken s); [reflexivity | discriminate].
Qed.

Lemma fold_scan_scanning (chars : jsstring) (s : scanner) :
  scanning s -> scanning (fold_left scan chars s).
Proof.
  revert s. induction chars as [| c chars IH]; intros s Hs; simpl;
    [assumption |].
  apply IH. now apply scan_scanning.
Qed.

End TokenFacts.

Lemma tokenize_shapes_aux (text : jsstring) :
  Forall (fun t => Shape.token_shape t = true) (Text.tokenize text).
Proof.
  unfold Text.tokenize.
  destruct (negb (truthy_str text)); [constructor |].
  assert (Hs : Shape.scanning
                 (fold_left Text.scan (toLowerCase text)
                            (Text.mkScanner [] [] None))).
  { apply fold_scan_scanning. split; simpl; [constructor | now left]. }
  destruct (truthy_str (Text.currentToken _)) eqn:Et.
  - apply Forall_snoc; [exact (proj1 Hs) | now apply pending_shape].
  - exact (proj1 Hs).
Qed.

(** X1.  Every token that tokenize returns is well shaped: a single CJK
    ideograph, or a non-empty run of lower-case ASCII letters, or a
    non-empty run of digits; separators never end up in a token and no
    token is empty. *)
Theorem tokenize_token_shapes :
  forall text : jsstring,
    Forall (fun t => Shape.token_shape t = true) (Text.tokenize text).
Proof. exact tokenize_shapes_aux. Qed.

(** ** utils/text.js: term frequencies and n-grams *)

Section FrequencyFacts.
Import Text.


Lemma pair_of_adjacent (l : list jsstring) (i : nat) :
  concat (firstn 2 (skipn i l)) = nth i l [] ++ nth (S i) l [].
Proof.
  revert i. induction l as [| x l IH]; intros i.
  - rewrite skipn_nil. now destruct i as [| [| i]].
  - destruct i as [| i]; simpl.
    + destruct l as [| y l]; simpl; now rewrite ?app_nil_r.
    + apply IH.
Qed.

End FrequencyFacts.



(** X3.  preprocess keeps exactly the tokens that pass the stop-word test,
    in their order; its bigrams are the concatenations of each kept token
    with the next one, so there is one fewer of them than tokens; and [all]
    is the tokens followed by the bigrams. *)
Theorem preprocess_tokens_and_bigrams :
  forall text : jsstring,
    let p := Text.preprocess text in
    Text.tokens p = filter Shape.kept (Text.tokenize text)
    /\ Forall (fun t => Shape.token_shape t = true /\ Shape.kept t = true)
              (Text.tokens p)
    /\ Text.bigrams p
       = map (fun i => nth i (Text.tokens p) [] ++ nth (S i) (Text.tokens p) [])
             (seq 0 (length (Text.tokens p) - 1))
    /\ Text.all p = Text.tokens p ++ Text.bigrams p.
Proof.
  intros text. simpl. split; [reflexivity |]. split; [| split].
  - apply Forall_forall. intros t Ht.
    unfold Text.removeStopwords in Ht. apply filter_In in Ht.
    destruct Ht as [Hin Hk]. split; [| exact Hk].
    pose proof (tokenize_shapes_aux text) as H.
    rewrite Forall_forall in H. now apply H.
  - unfold Text.extractNgrams.
    replace (length (Text.removeStopwords (Text.tokenize text)) + 1 - 2)
      with (length (Text.removeStopwords (Text.tokenize text)) - 1) by lia.
    apply map_ext. intros i. apply pair_of_adjacent.
  - reflexivity.
Qed.

(** ** utils/text.js: the similarity measures *)

Section MeasureFacts.
Import Text Bounds.


Lemma empty_right_norm (vec1 : obj number) (ks : list jsstring) (s : sums) :
  (exists r, norm2 s = Num r /\ r = 0%R) ->
  exists r, norm2 (fold_left (accumulate vec1 []) ks s) = Num r /\ r = 0%R.
Proof.
  revert s. induction ks as [| k ks IH]; intros s H; simpl; [assumption |].
  apply IH. destruct H as (r & E & Hr). unfold accumulate. simpl.
  rewrite E. simpl. eexists. split; [reflexivity | lra].
Qed.



Lemma jaccardSimilarity_self (s : list jsstring) :
  NoDup s -> s <> [] -> jaccardSimilarity s s = Num 1%R.
Proof.
  intros Hn Hne. unfold jaccardSimilarity.
  assert (E : length (mkSet (filter (has s) s)) = length (mkSet (s ++ s))).
  { apply mkSet_length_ext. intros x.
    rewrite filter_In, has_In, in_app_iff. tauto. }
  rewrite E. unfold ndiv, of_nat, Req_b.
  assert (Hu : length (mkSet (s ++ s)) <> 0).
  { destruct s as [| x s]; [congruence |].
    assert (Hin : In x (mkSet ((x :: s) ++ x :: s)))
      by (apply mkSet_In; now left).
    destruct (mkSet ((x :: s) ++ x :: s)); [destruct Hin | discriminate]. }
  assert (Pu : (0 < INR (length (mkSet (s ++ s))))%R)
    by (apply lt_0_INR; lia).
  destruct (Req_dec_T (INR (length (mkSet (s ++ s)))) 0); [lra |].
  f_equal. field. lra.
Qed.

End MeasureFacts.





(** X7.  jaccardSimilarity is symmetric; when the two sets are not both
    empty it is a real number between 0 and 1, and it is 1 when both
    arguments are the same set. *)
Theorem jaccardSimilarity_measure
  (set1 set2 : list jsstring) (Hne : set1 ++ set2 <> []) :
  Text.jaccardSimilarity set1 set2 = Text.jaccardSimilarity set2 set1
  /\ Bounds.unit_interval (Text.jaccardSimilarity set1 set2)
  /\ (set1 = set2 -> NoDup set1 ->
      Text.jaccardSimilarity set1 set2 = Num 1%R).
Proof.
  split; [apply jaccardSimilarity_sym |].
  split; [now apply jaccardSimilarity_unit |].
  intros <- Hn. apply jaccardSimilarity_self; [assumption |].
  intros E. rewrite E in Hne. now apply Hne.
Qed.

Lemma jaccardSimilarity_measure_witness :
  [str "rwa"; str "token"] ++ [str "rwa"] <> []
  /\ Text.jaccardSimilarity [str "rwa"; str "token"] [str "rwa"]
     = Text.jaccardSimilarity [str "rwa"] [str "rwa"; str "token"]
  /\ Bounds.unit_interval
       (Text.jaccardSimilarity [str "rwa"; str "token"] [str "rwa"])
  /\ ([str "rwa"; str "token"] = [str "rwa"] ->
      NoDup [str "rwa"; str "token"] ->
      Text.jaccardSimilarity [str "rwa"; str "token"] [str "rwa"]
      = Num 1%R).
Proof.
  assert (H : [str "rwa"; str "token"] ++ [str "rwa"] <> [])
    by discriminate.
  split; [exact H |].
  exact (@jaccardSimilarity_measure [str "rwa"; str "token"] [str "rwa"] H).
Defined.

(** ** Dictionaries: enumeration *)

Section EnumerationFacts.

Variable V : Type.







End EnumerationFacts.

(** ** utils/text.js: extractKeywords *)

Section KeywordFacts.
Import Text Keywords.



End KeywordFacts.


(** ** embeddings/vectorizer.js: the fitted model *)

Section ModelFacts.
Import Vectorizer Census.

Lemma put_fresh (V : Type) (o : obj V) (k : jsstring) (v : V) :
  ~ In k (map fst o) -> put o k v = o ++ [(k, v)].
Proof.
  induction o as [| [k' v'] o IH]; simpl; intros H; [reflexivity |].
  destruct (str_eqb k k') eqn:E.
  - apply str_eqb_eq in E. subst. tauto.
  - rewrite IH by tauto. reflexivity.
Qed.

(** Numbering new terms: each gets the size of the table so far. *)
Lemma numbering_fresh (es : list (jsstring * nat)) (o : obj nat) :
  NoDup (map fst es) ->
  (forall k, In k (map fst es) -> ~ In k (map fst o)) ->
  fold_left (fun o e => put o (fst e) (length (keys o))) es o
  = o ++ combine (map fst es) (seq (length o) (length es)).
Proof.
  revert o. induction es as [| e es IH]; intros o Hn Hfresh; simpl.
  - now rewrite app_nil_r.
  - inversion Hn as [| ? ? Hnot Hd]; subst.
    rewrite keys_length, put_fresh by (apply Hfresh; now left).
    rewrite IH; [| assumption |].
    + rewrite length_app, <- app_assoc. simpl.
      now replace (length o + 1) with (S (length o)) by lia.
    + intros k Hk. rewrite map_app, in_app_iff. simpl.
      intros [Hin | [<- | []]]; [| tauto].
      apply (Hfresh k); [now right | assumption].
Qed.







End ModelFacts.

Section VectorFacts.
Import Vectorizer.







Lemma rank_facts (this : TFIDFVectorizer) (query : jsstring) (k : nat) :
  length (rank this query k) <= k
  /\ Order.descending (map s_score (rank this query k))
  /\ Forall (fun s => Order.positive (s_score s)
                      /\ In (s_id s) (map v_id (vectors this)))
            (rank this query k).
Proof.
  split; [apply firstn_le_length |]. split; [apply rank_descending |].
  apply Forall_forall. intros s Hs. unfold rank in Hs.
  apply In_firstn, sort_In, filter_In in Hs. destruct Hs as [Hin Hpos].
  split; [exact Hpos |].
  apply in_map_iff in Hin. destruct Hin as (d & <- & Hd). simpl.
  now apply in_map.
Qed.

End VectorFacts.

(** X9.  Adding a document appends it and marks the model as not fitted;
    a fit right after never throws and yields one vector per document, in
    the order of the documents, and a search on the model that was not
    fitted fits it first and ranks on the fitted model. *)
Theorem addDocument_then_fit :
  forall (this : Vectorizer.TFIDFVectorizer) (id text : jsstring)
         (meta : Vectorizer.metadata),
    let added := Vectorizer.addDocument this id text meta in
    Vectorizer.fitted added = false
    /\ length (Vectorizer.documents added)
       = S (length (Vectorizer.documents this))
    /\ exists first,
         Vectorizer.fit added = Ok first
         /\ Vectorizer.fitted first = true
         /\ Vectorizer.documents first = Vectorizer.documents added
         /\ map Vectorizer.v_id (Vectorizer.vectors first)
            = map Vectorizer.d_id (Vectorizer.documents added)
         /\ forall query k,
              Vectorizer.search added query k
              = Ok (Vectorizer.rank first query k, first).
Proof.
  intros this id text meta added.
  split; [reflexivity |].
  split; [unfold added; simpl; rewrite length_app; simpl; lia |].
  assert (Hne : Vectorizer.documents added <> []).
  { unfold added. simpl. intros E. apply app_eq_nil in E.
    destruct E as [_ E]. discriminate. }
  destruct (fit_nonempty _ Hne) as (first & Hfit & Hfitted & Hdocs).
  exists first. repeat split; try assumption.
  - destruct (fit_Ok _ Hfit) as (_ & _ & Ev). rewrite Ev, map_map.
    reflexivity.
  - intros query k. unfold Vectorizer.search. simpl. now rewrite Hfit.
Qed.

(** X10.  Fitting twice in a row: the second fit finds the same documents
    and recomputes the same IDF table and the same document vectors, so
    every query is ranked as after the first fit. *)
Theorem refit_same_idf_and_ranking
  (this first second : Vectorizer.TFIDFVectorizer)
  (H1 : Vectorizer.fit this = Ok first)
  (H2 : Vectorizer.fit first = Ok second) :
  Vectorizer.documents second = Vectorizer.documents first
  /\ Vectorizer.idf second = Vectorizer.idf first
  /\ Vectorizer.vectors second = Vectorizer.vectors first
  /\ forall query k,
       Vectorizer.rank second query k = Vectorizer.rank first query k.
Proof. now apply refit_keeps_idf_and_ranking with this. Qed.

Lemma refit_same_idf_and_ranking_witness :
  Vectorizer.fit Samples.one_document = Ok MoreSamples.fitted_once
  /\ Vectorizer.fit MoreSamples.fitted_once = Ok MoreSamples.fitted_twice
  /\ Vectorizer.documents MoreSamples.fitted_twice
     = Vectorizer.documents MoreSamples.fitted_once
  /\ Vectorizer.idf MoreSamples.fitted_twice
     = Vectorizer.idf MoreSamples.fitted_once
  /\ Vectorizer.vectors MoreSamples.fitted_twice
     = Vectorizer.vectors MoreSamples.fitted_once
  /\ forall query k,
       Vectorizer.rank MoreSamples.fitted_twice query k
       = Vectorizer.rank MoreSamples.fitted_once query k.
Proof.
  assert (H1 : Vectorizer.fit Samples.one_document
               = Ok MoreSamples.fitted_once) by reflexivity.
  assert (H2 : Vectorizer.fit MoreSamples.fitted_once
               = Ok MoreSamples.fitted_twice) by reflexivity.
  split; [exact H1 |]. split; [exact H2 |].
  exact (@refit_same_idf_and_ranking Samples.one_document
           MoreSamples.fitted_once MoreSamples.fitted_twice H1 H2).
Defined.

(** X11.  The first fit of a vectorizer whose vocabulary is still empty
    numbers the terms of the corpus 0, 1, 2, ... in the order in which
    Object.entries enumerates the document frequencies: the indices are
    distinct and smaller than the number of terms. *)
Theorem first_fit_numbers_vocabulary
  (this first : Vectorizer.TFIDFVectorizer)
  (Hfresh : Vectorizer.vocabulary this = [])
  (Hfit : Vectorizer.fit this = Ok first) :
  Vectorizer.vocabulary first
  = combine
      (keys (Vectorizer.documentFrequency (Vectorizer.documents this)))
      (seq 0 (length (Vectorizer.documentFrequency
                        (Vectorizer.documents this)))).
Proof.
  rewrite (fit_vocabulary _ Hfit), Hfresh.
  rewrite numbering_fresh.
  - simpl. unfold keys. f_equal. f_equal.
    apply Permutation_length, entries_Permutation.
  - apply entries_NoDup, documentFrequency_NoDup.
  - intros k _ [].
Qed.

Lemma first_fit_numbers_vocabulary_witness :
  Vectorizer.vocabulary Samples.one_document = []
  /\ Vectorizer.fit Samples.one_document = Ok MoreSamples.fitted_once
  /\ Vectorizer.vocabulary MoreSamples.fitted_once
     = combine
         (keys (Vectorizer.documentFrequency
                  (Vectorizer.documents Samples.one_document)))
         (seq 0 (length (Vectorizer.documentFrequency
                           (Vectorizer.documents Samples.one_document)))).
Proof.
  assert (H0 : Vectorizer.vocabulary Samples.one_document = [])
    by reflexivity.
  assert (H1 : Vectorizer.fit Samples.one_document
               = Ok MoreSamples.fitted_once) by reflexivity.
  split; [exact H0 |]. split; [exact H1 |].
  exact (@first_fit_numbers_vocabulary Samples.one_document
           MoreSamples.fitted_once H0 H1).
Defined.





(** X14.  The ranking that search returns: at most topK results, each with
    a score strictly above 0 and the id of a document vector, in order of
    decreasing score. *)
Theorem rank_is_ranked :
  forall (this : Vectorizer.TFIDFVectorizer) (query : jsstring) (topK : nat),
    length (Vectorizer.rank this query topK) <= topK
    /\ Order.descending
         (map Vectorizer.s_score (Vectorizer.rank this query topK))
    /\ Forall (fun s =>
                 Order.positive (Vectorizer.s_score s)
                 /\ In (Vectorizer.s_id s)
                       (map Vectorizer.v_id (Vectorizer.vectors this)))
              (Vectorizer.rank this query topK).
Proof. exact rank_facts. Qed.



(** ** search/semantic.js: indexing and searching *)

Section IndexFacts.
Import SemanticSearch Fitted.

Lemma indexArticle_documents (arts : list Article) (this : SemanticSearch) :
  map Vectorizer.d_id
      (Vectorizer.documents (vectorizer (fold_left indexArticle arts this)))
  = map Vectorizer.d_id (Vectorizer.documents (vectorizer this))
    ++ map id arts.
Proof.
  revert this. induction arts as [| a arts IH]; intros this; simpl.
  - now rewrite app_nil_r.
  - rewrite IH. simpl. rewrite map_app, <- app_assoc. reflexivity.
Qed.

Lemma indexArticle_keys (arts : list Article) (this : SemanticSearch) :
  NoDup (map fst (articles this)) ->
  NoDup (map fst (articles (fold_left indexArticle arts this)))
  /\ forall k, In k (map fst (articles (fold_left indexArticle arts this)))
               <-> In k (map fst (articles this)) \/ In k (map id arts).
Proof.
  revert this. induction arts as [| a arts IH]; intros this Hn; simpl.
  - split; [assumption | tauto].
  - destruct (IH (indexArticle this a)) as [Hn' Hk].
    { simpl. now apply put_NoDup. }
    split; [assumption |].
    intros k. rewrite Hk. simpl. rewrite put_keys. intuition congruence.
Qed.

Lemma indexArticle_stored (arts : list Article) (this : SemanticSearch)
  (k : jsstring) :
  (forall stored, get (articles this) k = Some stored -> id stored = k) ->
  forall stored,
    get (articles (fold_left indexArticle arts this)) k = Some stored ->
    id stored = k.
Proof.
  revert this. induction arts as [| a arts IH]; intros this H; simpl;
    [assumption |].
  apply IH. intros stored. simpl.
  destruct (str_eq_dec k (id a)) as [-> | Hne].
  - rewrite get_put_same. now intros [= <-].
  - rewrite get_put_other by assumption. apply H.
Qed.

Lemma get_Some_key (V : Type) (o : obj V) (k : jsstring) :
  In k (map fst o) -> exists v, get o k = Some v.
Proof.
  induction o as [| [k' v'] o IH]; simpl; intros H; [destruct H |].
  destruct (str_eqb k k') eqn:E; [eauto |].
  destruct H as [-> | H]; [| now apply IH].
  rewrite str_eqb_refl in E. discriminate.
Qed.

Lemma search_Ok_ready (this this' : SemanticSearch) (query : jsstring)
  (o : options) (hits : list hit) :
  search this query o = Ok (hits, this') -> ready this.
Proof.
  intros H. unfold ready.
  destruct (Vectorizer.fitted (vectorizer this)) eqn:Ef; [now left |].
  right. intros Ed. unfold search, Vectorizer.fit in H.
  rewrite Ef, Ed in H. discriminate.
Qed.

Lemma hits_facts (this : SemanticSearch) (query : jsstring) (o : options) :
  length (hits_of this query o) <= topK o
  /\ Order.descending (map h_score (hits_of this query o))
  /\ Forall (fun h => nge (h_score h) (minScore o) = true
                      /\ Order.positive (h_score h)
                      /\ In (h_id h)
                            (map Vectorizer.v_id
                                 (Vectorizer.vectors (vectorizer this))))
            (hits_of this query o).
Proof.
  destruct (rank_facts (vectorizer this) query (topK o)) as (Hlen & _ & Hall).
  split; [| split; [apply hits_descending |]].
  - unfold hits_of. rewrite length_map.
    eapply Nat.le_trans; [apply filter_length_le | exact Hlen].
  - apply Forall_forall. intros h Hh. unfold hits_of in Hh.
    apply in_map_iff in Hh. destruct Hh as (r & <- & Hr).
    apply filter_In in Hr. destruct Hr as [Hr Hmin]. simpl.
    rewrite Forall_forall in Hall. destruct (Hall r Hr) as [Hp Hid].
    tauto.
Qed.

End IndexFacts.

(** X16.  A search throws exactly when the vectorizer is neither fitted
    nor has a document to fit, and then with the error of fit; otherwise
    it returns hits and leaves the article store as it is. *)
Theorem search_throws_iff_nothing_to_fit :
  forall (this : SemanticSearch.SemanticSearch) (query : jsstring)
         (o : SemanticSearch.options),
    (SemanticSearch.search this query o = Throw Vectorizer.no_documents
     <-> ~ Fitted.ready this)
    /\ ((exists hits this',
            SemanticSearch.search this query o = Ok (hits, this')
            /\ SemanticSearch.articles this' = SemanticSearch.articles this)
        <-> Fitted.ready this).
Proof.
  intros this query o. split; split.
  - intros H Hready.
    destruct (search_ready query o Hready) as (this' & E & _). congruence.
  - apply search_unready_throws.
  - intros (hits & this' & H & _). now apply search_Ok_ready in H.
  - intros Hready.
    destruct (search_ready query o Hready) as (this' & E & Ha & _). eauto.
Qed.

(** X17.  indexArticles on a new index adds one document per article, in
    order, fits the model, and stores every article under its id, one
    entry per id; it does not succeed on an empty list of articles. *)
Theorem indexArticles_stores_every_article
  (arts : list Article) (this : SemanticSearch.SemanticSearch)
  (Hindex : SemanticSearch.indexArticles SemanticSearch.create arts = Ok this) :
  arts <> []
  /\ Vectorizer.fitted (SemanticSearch.vectorizer this) = true
  /\ map Vectorizer.d_id
         (Vectorizer.documents (SemanticSearch.vectorizer this))
     = map id arts
  /\ NoDup (map fst (SemanticSearch.articles this))
  /\ (forall k, In k (map fst (SemanticSearch.articles this))
                <-> In k (map id arts))
  /\ forall a, In a arts ->
       exists stored,
         get (SemanticSearch.articles this) (id a) = Some stored
         /\ id stored = id a.
Proof.
  pose proof (indexArticles_fitted _ _ Hindex) as Hfit.
  unfold SemanticSearch.indexArticles in Hindex.
  set (filled := fold_left SemanticSearch.indexArticle arts
                           SemanticSearch.create) in *.
  destruct (Vectorizer.fit (SemanticSearch.vectorizer filled))
    as [v | m] eqn:Ev; [| discriminate].
  injection Hindex as <-. simpl in *.
  destruct (fit_Ok _ Ev) as (Ed & _).
  destruct (@indexArticle_keys arts SemanticSearch.create) as [Hn Hk];
    [constructor |].
  pose proof (indexArticle_documents arts SemanticSearch.create) as Hdocs.
  fold filled in Hn, Hk, Hdocs. simpl in Hdocs, Hk.
  split.
  - intros ->. unfold filled in Ev. simpl in Ev. discriminate.
  - split; [exact Hfit |]. split; [now rewrite Ed |].
    split; [exact Hn |]. split; [intros k; rewrite Hk; tauto |].
    intros a Ha.
    destruct (@get_Some_key _ (SemanticSearch.articles filled) (id a))
      as [stored Hs].
    { apply Hk. right. now apply in_map. }
    exists stored. split; [exact Hs |].
    apply (@indexArticle_stored arts SemanticSearch.create (id a));
      [intros ? [=] | exact Hs].
Qed.

Lemma indexArticles_stores_every_article_witness :
  SemanticSearch.indexArticles SemanticSearch.create Samples.corpus
  = Ok Samples.indexed
  /\ Samples.corpus <> []
  /\ Vectorizer.fitted (SemanticSearch.vectorizer Samples.indexed) = true
  /\ map Vectorizer.d_id
         (Vectorizer.documents (SemanticSearch.vectorizer Samples.indexed))
     = map id Samples.corpus
  /\ NoDup (map fst (SemanticSearch.articles Samples.indexed))
  /\ (forall k, In k (map fst (SemanticSearch.articles Samples.indexed))
                <-> In k (map id Samples.corpus))
  /\ forall a, In a Samples.corpus ->
       exists stored,
         get (SemanticSearch.articles Samples.indexed) (id a) = Some stored
         /\ id stored = id a.
Proof.
  assert (H : SemanticSearch.indexArticles SemanticSearch.create
                                           Samples.corpus
              = Ok Samples.indexed) by reflexivity.
  split; [exact H |].
  exact (@indexArticles_stores_every_article Samples.corpus Samples.indexed H).
Defined.

(** X18.  The hits of a search on an index that is fitted or has a
    document to fit: at most topK of them, each with a score that is
    positive and at least minScore and with the id of an indexed document,
    in order of decreasing score. *)
Theorem search_hits_are_ranked
  (this : SemanticSearch.SemanticSearch) (query : jsstring)
  (o : SemanticSearch.options) (Hready : Fitted.ready this) :
  exists hits this',
    SemanticSearch.search this query o = Ok (hits, this')
    /\ length hits <= SemanticSearch.topK o
    /\ Order.descending (map SemanticSearch.h_score hits)
    /\ Forall (fun h =>
                 nge (SemanticSearch.h_score h) (SemanticSearch.minScore o)
                 = true
                 /\ Order.positive (SemanticSearch.h_score h)
                 /\ In (SemanticSearch.h_id h)
                       (map Vectorizer.v_id
                            (Vectorizer.vectors
                               (SemanticSearch.vectorizer this'))))
              hits.
Proof.
  destruct (search_ready query o Hready) as (this' & E & _ & _).
  exists (Fitted.hits_of this' query o), this'.
  split; [exact E |]. apply hits_facts.
Qed.

Lemma search_hits_are_ranked_witness :
  Fitted.ready Samples.indexed
  /\ exists hits this',
       SemanticSearch.search Samples.indexed (str "RWA")
         (SemanticSearch.mkOptions 5 SemanticSearch.default_minScore true)
       = Ok (hits, this')
       /\ length hits <= 5
       /\ Order.descending (map SemanticSearch.h_score hits)
       /\ Forall (fun h =>
                    nge (SemanticSearch.h_score h)
                        SemanticSearch.default_minScore = true
                    /\ Order.positive (SemanticSearch.h_score h)
                    /\ In (SemanticSearch.h_id h)
                          (map Vectorizer.v_id
                               (Vectorizer.vectors
                                  (SemanticSearch.vectorizer this'))))
                 hits.
Proof.
  assert (Hready : Fitted.ready Samples.indexed) by (left; reflexivity).
  split; [exact Hready |].
  exact (@search_hits_are_ranked Samples.indexed (str "RWA")
           (SemanticSearch.mkOptions 5 SemanticSearch.default_minScore true)
           Hready).
Defined.

(** ** search/semantic.js: snippets and clusters *)

Section SnippetFacts.
Import SemanticSearch Clusters.

Lemma zero_overlap_scores_nothing (m : nat) :
  ngt (ndiv (of_nat 0) (of_nat m)) (Num 0%R) = false.
Proof.
  unfold ndiv, of_nat, Req_b. change (INR 0) with 0%R.
  destruct (Req_dec_T (INR m) 0).
  - destruct (Req_dec_T 0 0); [reflexivity | lra].
  - simpl. unfold Rlt_b. destruct (Rlt_dec 0 (0 / INR m)); [| reflexivity].
    unfold Rdiv in *. rewrite Rmult_0_l in *. lra.
Qed.

Lemma snippets_facts (query content : jsstring) (maxSnippets : nat) :
  length (extractRelevantSnippets query content maxSnippets) <= maxSnippets
  /\ Forall
       (fun s =>
          exists sentence,
            In sentence (split_sentences content)
            /\ s = trim sentence
            /\ 15 < js_length s
            /\ exists t,
                 In t (Text.tokens (Text.preprocess query))
                 /\ In t (Text.tokens (Text.preprocess sentence)))
       (extractRelevantSnippets query content maxSnippets).
Proof.
  unfold extractRelevantSnippets. cbv zeta. split.
  - rewrite length_map. apply firstn_le_length.
  - apply Forall_forall. intros s Hs. apply in_map_iff in Hs.
    destruct Hs as (x & <- & Hx).
    apply In_firstn, sort_In, filter_In in Hx. destruct Hx as [Hx Hpos].
    apply in_map_iff in Hx. destruct Hx as (sent & <- & Hsent).
    apply filter_In in Hsent. destruct Hsent as [Hin Hlen].
    apply Nat.ltb_lt in Hlen. cbn [sentence sentence_score] in *.
    exists sent. split; [assumption |]. split; [reflexivity |].
    split; [assumption |].
    destruct (filter (has (mkSet (Text.tokens (Text.preprocess query))))
                     (Text.tokens (Text.preprocess sent)))
      as [| t rest] eqn:E.
    + cbn [length] in Hpos.
      rewrite zero_overlap_scores_nothing in Hpos. discriminate.
    + assert (Ht : In t (filter
                           (has (mkSet (Text.tokens (Text.preprocess query))))
                           (Text.tokens (Text.preprocess sent))))
        by (rewrite E; now left).
      apply filter_In in Ht. destruct Ht as [Ht Hq].
      apply (proj1 (has_In _ _)) in Hq. apply (proj1 (mkSet_In _ _)) in Hq.
      exists t. tauto.
Qed.






End SnippetFacts.

(** X19.  extractRelevantSnippets returns at most maxSnippets snippets;
    each is a sentence of the content, trimmed, of more than 15 code
    units, that shares at least one filtered token with the query. *)
Theorem extractRelevantSnippets_selects_sentences :
  forall (query content : jsstring) (maxSnippets : nat),
    length (SemanticSearch.extractRelevantSnippets query content maxSnippets)
    <= maxSnippets
    /\ Forall
         (fun s =>
            exists sentence,
              In sentence (SemanticSearch.split_sentences content)
              /\ s = SemanticSearch.trim sentence
              /\ 15 < js_length s
              /\ exists t,
                   In t (Text.tokens (Text.preprocess query))
                   /\ In t (Text.tokens (Text.preprocess sentence)))
         (SemanticSearch.extractRelevantSnippets query content maxSnippets).
Proof. exact snippets_facts. Qed.


(** ** Sorting elements that can be compared *)

Section SortedOnFacts.

Variable A : Type.
Variable after : A -> A -> bool.
Variable P : A -> Prop.
Variable R : A -> A -> Prop.
Hypothesis R_trans : forall x y z, R x y -> R y z -> R x z.
Hypothesis after_true : forall x y, P x -> P y -> after x y = true -> R y x.
Hypothesis after_false : forall x y, P x -> P y -> after x y = false -> R x y.

Lemma insert_sorted_StronglySorted_on (x : A) (l : list A) :
  P x -> Forall P l ->
  StronglySorted R l -> StronglySorted R (insert_sorted after x l).
Proof.
  intros Hx Hl Hs. induction Hs as [| y ys Hs IH Hall]; simpl.
  - repeat constructor.
  - inversion Hl as [| ? ? Hy Hys]; subst.
    destruct (after x y) eqn:E.
    + constructor; [now apply IH |].
      apply insert_sorted_Forall; [now apply after_true | assumption].
    + constructor; [now constructor |].
      constructor; [now apply after_false |].
      apply Forall_forall. intros z Hz. rewrite Forall_forall in Hall.
      apply R_trans with y; [now apply after_false | now apply Hall].
Qed.

Lemma sort_StronglySorted_on (l : list A) :
  Forall P l -> StronglySorted R (sort after l).
Proof.
  induction l as [| x l IH]; simpl; intros H; [constructor |].
  inversion H; subst.
  apply insert_sorted_StronglySorted_on; [assumption | | now apply IH].
  apply Forall_forall. intros y Hy. apply sort_In in Hy.
  rewrite Forall_forall in H. apply H. now right.
Qed.

End SortedOnFacts.

(** ** analysis/trends.js: timelines and trends *)

Section TimelineFacts.
Import Trends Chronology.

Lemma later_sorted (l : list Article) :
  Forall (fun a => dated (savedAt a)) l ->
  StronglySorted (fun a b => (time_of (savedAt a) <= time_of (savedAt b))%Z)
                 (sort later l).
Proof.
  apply sort_StronglySorted_on.
  - intros x y z Hxy Hyz. lia.
  - intros x y Hx Hy H. unfold later, dated, time_of in *.
    destruct (date_or_epoch (savedAt x)); [| congruence].
    destruct (date_or_epoch (savedAt y)); [| congruence].
    apply Z.ltb_lt in H. lia.
  - intros x y Hx Hy H. unfold later, dated, time_of in *.
    destruct (date_or_epoch (savedAt x)); [| congruence].
    destruct (date_or_epoch (savedAt y)); [| congruence].
    apply Z.ltb_ge in H. lia.
Qed.

Lemma buildTimeline_tagged (this : TrendAnalyzer) (tag : option jsstring)
  (t : jsstring) (h : store) :
  tag_given tag = Some t ->
  fst (buildTimeline this tag h)
  = map entry_of (sort later (filter (mentions t) (read h (articles this)))).
Proof.
  intros Ht. unfold buildTimeline. rewrite Ht. unfold alloc. simpl.
  rewrite write_fresh. unfold read. rewrite !app_nth2 by lia.
  now rewrite Nat.sub_diag.
Qed.

Lemma buildTimeline_untagged (this : TrendAnalyzer) (tag : option jsstring)
  (h : store) :
  tag_given tag = None ->
  articles this < length h ->
  fst (buildTimeline this tag h)
  = map entry_of (sort later (read h (articles this))).
Proof.
  intros Ht Hr. unfold buildTimeline. rewrite Ht. simpl.
  now rewrite read_write.
Qed.

Lemma disjoint_windows (l : list timelineEntry) (p q : timelineEntry -> bool) :
  (forall e, p e = true -> q e = true -> False) ->
  length (filter p l) + length (filter q l) <= length l.
Proof.
  intros H. induction l as [| e l IH]; simpl; [lia |].
  destruct (p e) eqn:Ep; destruct (q e) eqn:Eq; simpl; try lia.
  exfalso. now apply (H e).
Qed.

Lemma take_last_length (A : Type) (k : nat) (l : list A) :
  length (take_last k l) <= k.
Proof. unfold take_last. rewrite length_skipn. lia. Qed.

Lemma classify_not_no_data (recent older n : nat) :
  classify recent older n <> no_data.
Proof.
  unfold classify.
  destruct (Qlt_b _ _); [discriminate |].
  destruct (_ && _); [discriminate |].
  destruct (n =? 1); discriminate.
Qed.



End TimelineFacts.



(** X22.  When every stored savedAt is a date that can be read, the
    timeline is in chronological order. *)
Theorem buildTimeline_chronological :
  forall (this : Trends.TrendAnalyzer) (tag : option jsstring)
         (h : Trends.store),
    Trends.articles this < length h ->
    Forall (fun a => Chronology.dated (savedAt a))
           (Trends.read h (Trends.articles this)) ->
    StronglySorted
      (fun e1 e2 => (Chronology.time_of (Trends.date e1)
                     <= Chronology.time_of (Trends.date e2))%Z)
      (fst (Trends.buildTimeline this tag h)).
Proof.
  intros this tag h Hr Hd.
  destruct (Trends.tag_given tag) as [t |] eqn:Ht.
  - rewrite (buildTimeline_tagged this tag h Ht).
    apply StronglySorted_map with
      (R := fun e1 e2 => (Chronology.time_of (Trends.date e1)
                          <= Chronology.time_of (Trends.date e2))%Z).
    simpl. apply later_sorted.
    apply Forall_forall. intros a Ha. apply filter_In in Ha.
    rewrite Forall_forall in Hd. now apply Hd.
  - rewrite (buildTimeline_untagged this tag h Ht Hr).
    apply StronglySorted_map with
      (R := fun e1 e2 => (Chronology.time_of (Trends.date e1)
                          <= Chronology.time_of (Trends.date e2))%Z).
    simpl. now apply later_sorted.
Qed.

Lemma buildTimeline_chronological_witness :
  StronglySorted
    (fun e1 e2 => (Chronology.time_of (Trends.date e1)
                   <= Chronology.time_of (Trends.date e2))%Z)
    (fst (Trends.buildTimeline (Trends.mkAnalyzer 0) None
                               [[Samples.february; Samples.january]])).
Proof.
  apply (@buildTimeline_chronological (Trends.mkAnalyzer 0) None
           [[Samples.february; Samples.january]]).
  - simpl. lia.
  - repeat constructor; discriminate.
Defined.

(** X23.  The report of analyzeTrend: the article count is the length of
    the timeline; no article is counted both as recent and as older, so the
    two counts together never exceed the article count; the trend is
    no_data exactly when the timeline is empty; at most ten timeline
    entries are reported; and the store is left as buildTimeline leaves
    it. *)
Theorem analyzeTrend_report :
  forall (this : Trends.TrendAnalyzer) (tag : option jsstring) (now : Z)
         (h : Trends.store),
    let r := fst (Trends.analyzeTrend this tag now h) in
    Trends.articleCount r = length (fst (Trends.buildTimeline this tag h))
    /\ Trends.recentCount r + Trends.olderCount r <= Trends.articleCount r
    /\ (Trends.trend r = Trends.no_data <-> Trends.articleCount r = 0)
    /\ length (Trends.timeline r) <= 10
    /\ snd (Trends.analyzeTrend this tag now h)
       = snd (Trends.buildTimeline this tag h).
Proof.
  intros this tag now h. unfold Trends.analyzeTrend.
  destruct (Trends.buildTimeline this tag h) as [tl h1]. cbv zeta.
  destruct tl as [| e tl].
  - simpl. repeat split; try lia; reflexivity.
  - cbn [fst snd Trends.articleCount Trends.recentCount Trends.olderCount
         Trends.trend Trends.timeline].
    split; [reflexivity |]. split; [| split; [| split]].
    + apply disjoint_windows. intros x Hp Hq.
      apply andb_true_iff in Hq. destruct Hq as [_ Hq].
      unfold Trends.after_ms, Trends.not_after_ms in *.
      destruct (date_of (Trends.date x)); [| discriminate].
      apply Z.ltb_lt in Hp. apply Z.leb_le in Hq. lia.
    + split; [intros H; now apply classify_not_no_data in H |].
      simpl. discriminate.
    + apply take_last_length.
    + reflexivity.
Qed.


(** ** analysis/trends.js: hot and emerging topics *)

Section TopicFacts.
Import Trends Topics Tagging.














End TopicFacts.



(** ** analysis/connections.js: ConnectionDiscovery *)

Section DiscoveryFacts.
Import Order Connections Discovery Tagging.

Lemma above_tenth_positive (a : number) :
  ngt a (Num (1 / 10)%R) = true -> positive a.
Proof.
  unfold positive. destruct a as [r | [|] |]; simpl; try easy.
  unfold Rlt_b. destruct (Rlt_dec (1 / 10) r); [| discriminate].
  destruct (Rlt_dec 0 r); [reflexivity | lra].
Qed.

Lemma previews_In (this : ConnectionDiscovery) (newArticle : Article)
  (p : preview) :
  In p (findConnectionsForNewArticle this newArticle) ->
  exists existing,
    In existing (articles this)
    /\ p = mkPreview (id existing) (title existing) (category existing)
             (totalScore (calculateRelation newArticle existing))
             (types (calculateRelation newArticle existing))
             (sharedTags (calculateRelation newArticle existing))
    /\ ngt (p_score p) (Num (1 / 10)%R) = true.
Proof.
  unfold findConnectionsForNewArticle, take. intros H.
  apply In_firstn, sort_In, in_flat_map in H.
  destruct H as (existing & Hin & Hp). exists existing.
  split; [exact Hin |].
  destruct (ngt (totalScore (calculateRelation newArticle existing))
                (Num (1 / 10)%R)) eqn:E; [| destruct Hp].
  destruct Hp as [<- | []]. split; [reflexivity | exact E].
Qed.











End DiscoveryFacts.

(** X27.  findConnectionsForNewArticle returns at most five previews, in
    order of decreasing score; each is the relation of the new article to
    one of the stored articles, and its score is above 0.1. *)
Theorem findConnectionsForNewArticle_ranked :
  forall (this : Discovery.ConnectionDiscovery) (newArticle : Article),
    let ps := Discovery.findConnectionsForNewArticle this newArticle in
    length ps <= 5
    /\ Order.descending (map Discovery.p_score ps)
    /\ Forall (fun p =>
                 ngt (Discovery.p_score p) (Num (1 / 10)%R) = true
                 /\ exists existing,
                      In existing (Discovery.articles this)
                      /\ Discovery.p_id p = id existing
                      /\ Discovery.p_score p
                         = Connections.totalScore
                             (Connections.calculateRelation newArticle
                                                            existing)
                      /\ Discovery.p_sharedTags p
                         = Connections.sharedTags
                             (Connections.calculateRelation newArticle
                                                            existing))
              ps.
Proof.
  intros this newArticle ps.
  assert (Hall : forall p, In p ps ->
                   exists existing,
                     In existing (Discovery.articles this)
                     /\ p = Discovery.mkPreview (id existing) (title existing)
                              (category existing)
                              (Connections.totalScore
                                 (Connections.calculateRelation newArticle
                                                                existing))
                              (Connections.types
                                 (Connections.calculateRelation newArticle
                                                                existing))
                              (Connections.sharedTags
                                 (Connections.calculateRelation newArticle
                                                                existing))
                     /\ ngt (Discovery.p_score p) (Num (1 / 10)%R) = true)
    by (intros p; apply previews_In).
  split; [| split].
  - apply firstn_le_length.
  - subst ps. unfold Discovery.findConnectionsForNewArticle, take.
    rewrite <- firstn_map. apply descending_firstn.
    apply (sort_descending Discovery.p_score).
    apply Forall_forall. intros x Hx. apply in_map_iff in Hx.
    destruct Hx as (p & <- & Hp). apply in_flat_map in Hp.
    destruct Hp as (existing & _ & Hp).
    destruct (ngt (Connections.totalScore
                     (Connections.calculateRelation newArticle existing))
                  (Num (1 / 10)%R)) eqn:E; [| destruct Hp].
    destruct Hp as [<- | []]. now apply above_tenth_positive.
  - apply Forall_forall. intros p Hp. destruct (Hall p Hp) as (e & He & -> & Hs).
    split; [exact Hs |]. exists e. simpl. tauto.
Qed.


(** ** analysis/insights.js: deduplicatePoints *)

Section SieveFacts.
Import Insights.





End SieveFacts.


(** ** analysis/connections.js: findClusters *)

Section ClusterFacts.
Import Connections Discovery Termination.

Lemma has_set_add (visited : list jsstring) (c k : jsstring) :
  has (set_add visited c) k = has visited k || str_eqb k c.
Proof.
  unfold set_add. destruct (has visited c) eqn:E.
  - destruct (str_eqb k c) eqn:Ek; [| now rewrite orb_false_r].
    apply str_eqb_eq in Ek. subst k. now rewrite E.
  - unfold has. rewrite existsb_app. simpl. now rewrite orb_false_r.
Qed.

Lemma pending_set_add (graph : obj (list connection))
  (visited : list jsstring) (c : jsstring) :
  pending graph (set_add visited c) <= pending graph visited.
Proof.
  induction graph as [| [k v] graph IH]; simpl; [lia |].
  rewrite has_set_add.
  destruct (has visited k); simpl; [exact IH |].
  destruct (str_eqb k c); lia.
Qed.

Lemma pending_visit (graph : obj (list connection))
  (visited : list jsstring) (c : jsstring) :
  has visited c = false ->
  pending graph (set_add visited c)
  + match get graph c with
    | Some connections => S (length connections)
    | None => 0
    end
  <= pending graph visited.
Proof.
  intros Hc. induction graph as [| [k v] graph IH]; simpl; [lia |].
  rewrite has_set_add.
  destruct (str_eqb c k) eqn:E.
  - apply str_eqb_eq in E. subst k. rewrite Hc, str_eqb_refl. simpl.
    pose proof (pending_set_add graph visited c). lia.
  - assert (Ek : str_eqb k c = false).
    { destruct (str_eqb k c) eqn:Ek; [| reflexivity].
      apply str_eqb_eq in Ek. subst k. now rewrite str_eqb_refl in E. }
    rewrite Ek, orb_false_r. destruct (has visited k); lia.
Qed.

Lemma reachable_length (graph : obj (list connection))
  (visited : list jsstring) (c : jsstring) :
  length (reachable graph visited c)
  <= match get graph c with
     | Some connections => length connections
     | None => 0
     end.
Proof.
  unfold reachable. rewrite length_map.
  destruct (get graph c); [apply filter_length_le | simpl; lia].
Qed.

Lemma find_article_stored (this : ConnectionDiscovery) (c : jsstring)
  (a : Article) :
  find_article (articles this) c = Some a -> stored this (mkNode (id a) (title a)).
Proof.
  intros H. apply find_some in H. exists a. tauto.
Qed.

(** The loop of the search ends within as many iterations as its
    potential. *)
Lemma search_from_returns (this : ConnectionDiscovery) (fuel : nat) :
  forall f,
    potential (connectionGraph this) f <= fuel ->
    Forall (stored this) (cluster f) ->
    exists f',
      search_from fuel this f = Some f'
      /\ Forall (stored this) (cluster f').
Proof.
  induction fuel as [| fuel IH]; intros [q v cl] Hp Hs;
    unfold potential in Hp; simpl in *.
  - destruct q as [| c rest]; simpl in *; [| lia]. now exists (mkFrontier [] v cl).
  - destruct q as [| c rest]; simpl in *; [now exists (mkFrontier [] v cl) |].
    destruct (has v c) eqn:Hc.
    + apply IH; [unfold potential; simpl; lia | assumption].
    + apply IH.
      * unfold potential. simpl. rewrite length_app.
        pose proof (pending_visit (connectionGraph this) v c Hc).
        pose proof (reachable_length (connectionGraph this) (set_add v c) c).
        destruct (get (connectionGraph this) c); lia.
      * simpl. destruct (find_article (articles this) c) as [a |] eqn:Ef;
          [| assumption].
        apply Forall_app. split; [assumption |].
        repeat constructor. now apply (@find_article_stored this c).
Qed.

Lemma pending_le_start (graph : obj (list connection))
  (visited : list jsstring) :
  pending graph visited <= pending graph [].
Proof.
  induction graph as [| [k v] graph IH]; simpl; [lia |].
  destruct (has visited k); lia.
Qed.

Lemma grow_clusters_returns (this : ConnectionDiscovery) (fuel : nat) :
  1 + pending (connectionGraph this) [] <= fuel ->
  forall (todo : list Article) (seen : list jsstring)
         (clusters : list (list node)),
    Forall (cluster_ok this) clusters ->
    exists cs,
      grow_clusters fuel this todo seen clusters = Some cs
      /\ Forall (cluster_ok this) cs.
Proof.
  intros Hfuel. induction todo as [| a todo IH]; intros seen clusters Hc;
    cbn [grow_clusters].
  - now exists clusters.
  - destruct (has seen (id a)); [now apply IH |].
    destruct (@search_from_returns this fuel (mkFrontier [id a] seen []))
      as (f' & -> & Hf').
    + unfold potential. simpl.
      pose proof (pending_le_start (connectionGraph this) seen). lia.
    + constructor.
    + apply IH. destruct (Nat.leb_spec 2 (length (cluster f')));
        [| assumption].
      apply Forall_app. split; [assumption |].
      constructor; [split; assumption | constructor].
Qed.

Lemma flat_map_length_le (A B : Type) (g : A -> list B) (l : list A) :
  (forall x, length (g x) <= 1) -> length (flat_map g l) <= length l.
Proof.
  intros H. induction l as [| x l IH]; simpl; [lia |].
  rewrite length_app. specialize (H x). lia.
Qed.

Lemma indexed_length (arts : list Article) :
  length (indexed arts) = length arts.
Proof.
  unfold indexed. rewrite length_combine, length_seq. lia.
Qed.

Lemma edges_from_length (arts : list Article) (minScore : number) (i : nat)
  (a : Article) :
  length (edges_from arts minScore i a) <= length arts.
Proof.
  unfold edges_from. rewrite sort_length, <- indexed_length.
  apply flat_map_length_le. intros p.
  destruct (i =? fst p); simpl; [lia |].
  destruct (nge _ minScore); simpl; lia.
Qed.

Lemma put_bounded (n : nat) (graph : obj (list connection)) (k : jsstring)
  (v : list connection) :
  length v <= n ->
  Forall (fun e => length (snd e) <= n) graph ->
  Forall (fun e => length (snd e) <= n) (put graph k v)
  /\ length (put graph k v) <= S (length graph).
Proof.
  intros Hv. induction graph as [| [k' v'] graph IH]; simpl; intros H.
  - split; [now repeat constructor | lia].
  - inversion H as [| ? ? H1 H2]; subst.
    destruct (str_eqb k k'); simpl.
    + split; [now constructor | lia].
    + destruct (IH H2) as [IH1 IH2]. split; [now constructor | lia].
Qed.

Lemma graph_bounded (arts : list Article) (minScore : number)
  (l : list (nat * Article)) (graph : obj (list connection)) :
  Forall (fun e => length (snd e) <= length arts) graph ->
  let graph' :=
    fold_left (fun graph p =>
                 put graph (id (snd p))
                     (edges_from arts minScore (fst p) (snd p)))
              l graph in
  Forall (fun e => length (snd e) <= length arts) graph'
  /\ length graph' <= length graph + length l.
Proof.
  revert graph. induction l as [| p l IH]; intros graph H; simpl.
  - split; [assumption | lia].
  - destruct (@put_bounded (length arts) graph (id (snd p))
                (edges_from arts minScore (fst p) (snd p))
                (edges_from_length arts minScore (fst p) (snd p)) H)
      as [H1 H2].
    destruct (IH _ H1) as [H3 H4]. split; [assumption | lia].
Qed.

Lemma pending_bounded (n : nat) (graph : obj (list connection)) :
  Forall (fun e => length (snd e) <= n) graph ->
  pending graph [] <= length graph * (1 + n).
Proof.
  induction 1 as [| [k v] graph Hv Hg IH]; simpl in *; lia.
Qed.

Lemma work_bounded (this : ConnectionDiscovery) (minScore : number) :
  pending (connectionGraph (buildConnectionGraph this minScore)) []
  <= length (articles this) * (1 + length (articles this)).
Proof.
  unfold buildConnectionGraph. simpl.
  destruct (@graph_bounded (articles this) minScore
              (indexed (articles this)) [] (Forall_nil _)) as [H1 H2].
  simpl in H2. rewrite indexed_length in H2.
  eapply Nat.le_trans; [apply pending_bounded, H1 |].
  now apply Nat.mul_le_mono_r.
Qed.

Lemma smaller_sorted (l : list (list node)) :
  StronglySorted (fun a b => length b <= length a) (sort smaller l).
Proof.
  apply sort_StronglySorted.
  - intros x y z Hxy Hyz. lia.
  - intros x y H. unfold smaller in H. apply Nat.ltb_lt in H. lia.
  - intros x y H. unfold smaller in H. apply Nat.ltb_ge in H. lia.
Qed.

End ClusterFacts.

(** X30.  findClusters returns: its breadth-first searches end within
    1 + n (1 + n) iterations each, n being the number of stored articles.
    The clusters come in order of decreasing size, each has at least two
    nodes, and every node stands for a stored article; the connection
    graph is rebuilt with the threshold 0.25. *)
Theorem findClusters_returns :
  forall (this : Discovery.ConnectionDiscovery) (fuel : nat),
    1 + length (Discovery.articles this)
        * (1 + length (Discovery.articles this)) <= fuel ->
    exists clusters,
      Discovery.findClusters fuel this
      = Some (clusters,
              Discovery.buildConnectionGraph this (Num (25 / 100)%R))
      /\ StronglySorted (fun a b => length b <= length a) clusters
      /\ Forall (Termination.cluster_ok this) clusters.
Proof.
  intros this fuel Hfuel. unfold Discovery.findClusters.
  set (this1 := Discovery.buildConnectionGraph this (Num (25 / 100)%R)).
  assert (Hwork : 1 + Termination.pending (Discovery.connectionGraph this1) []
                  <= fuel).
  { pose proof (work_bounded this (Num (25 / 100)%R)). fold this1 in H. lia. }
  destruct (@grow_clusters_returns this1 fuel Hwork
              (Discovery.articles this1) [] [] (Forall_nil _))
    as (cs & -> & Hcs).
  exists (sort Discovery.smaller cs). split; [reflexivity |].
  split; [apply smaller_sorted |].
  apply Forall_forall. intros c Hc. apply sort_In in Hc.
  rewrite Forall_forall in Hcs. exact (Hcs c Hc).
Qed.

Lemma findClusters_returns_witness :
  exists clusters,
    Discovery.findClusters 7
      (Discovery.setArticles Discovery.create
                             [Samples.tagged_xy; Samples.tagged_yx])
    = Some (clusters,
            Discovery.buildConnectionGraph
              (Discovery.setArticles Discovery.create
                                     [Samples.tagged_xy; Samples.tagged_yx])
              (Num (25 / 100)%R))
    /\ StronglySorted (fun a b => length b <= length a) clusters
    /\ Forall (Termination.cluster_ok
                 (Discovery.setArticles Discovery.create
                                        [Samples.tagged_xy; Samples.tagged_yx]))
              clusters.
Proof.
  apply (@findClusters_returns
           (Discovery.setArticles Discovery.create
                                  [Samples.tagged_xy; Samples.tagged_yx]) 7).
  simpl. lia.
Defined.
